(** * CartoonAI: the generation request controller and the persistence gateway

    A shallow embedding of the decision logic of the [Home] and [Profile]
    components (generateImage, saveImage, loadImages) together with the
    [images] table of the Supabase migration, and the properties of the
    specification proved about it.

    Conventions of the embedding.
    - JavaScript strings are [string]: sequences of code units below 256.
    - A JavaScript number that the code computes with is a [JsNumber]:
      a double whose value is an integer, or none when the double is not
      finite (NaN, or an infinity after an overflow).
    - Every effect of the components (notifications, React state setters,
      network calls, timers, store writes) is an [Event]; a run of an
      operation is the list of its events in program order, the exit it
      took and the contents of the store afterwards.
    - Everything the components do not control (the upstream's answers,
      the random seed, the store's faults, identifiers and clock) is read
      from an explicit environment. *)

From Stdlib Require Import ZArith List Bool Ascii String Lia Permutation Sorted.
From Stdlib Require Import Numbers.DecimalString Numbers.DecimalPos.
Import ListNotations.

Open Scope string_scope.
Open Scope Z_scope.

Set Warnings "-register-all,-notation-for-abbreviation".

(** ** JavaScript primitives used by the components *)

Module JS.

(** White space and line terminators that [String.prototype.trim] and
    [parseInt] strip, among the code units below 256:
    TAB, LF, VT, FF, CR, SP and NBSP. *)
Definition is_whitespace (c : ascii) : bool :=
  let n := N_of_ascii c in
  (N.eqb n 9 || N.eqb n 10 || N.eqb n 11 || N.eqb n 12 || N.eqb n 13
   || N.eqb n 32 || N.eqb n 160)%bool.

Fixpoint trimStart (s : string) : string :=
  match s with
  | EmptyString => EmptyString
  | String c s' => if is_whitespace c then trimStart s' else s
  end.

Fixpoint trimEnd (s : string) : string :=
  match s with
  | EmptyString => EmptyString
  | String c s' =>
      match trimEnd s' with
      | EmptyString => if is_whitespace c then EmptyString else String c EmptyString
      | t => String c t
      end
  end.

(** [s.trim()] *)
Definition trim (s : string) : string := trimEnd (trimStart s).

(** Truthiness of a string: the empty string is the only falsy one. *)
Definition truthy_string (s : string) : bool :=
  match s with EmptyString => false | _ => true end.

(** [s.includes(sub)] *)
Fixpoint includes (s sub : string) : bool :=
  if String.prefix sub s then true
  else match s with
       | EmptyString => false
       | String _ s' => includes s' sub
       end.

(** A string made of white space only (the empty string included). *)
Fixpoint blank (s : string) : bool :=
  match s with
  | EmptyString => true
  | String c s' => is_whitespace c && blank s'
  end.

(** Numbers: a double whose value is an integer, or [None] for a double
    that is not finite (NaN, or an infinity after an overflow). *)
Definition JsNumber := option Z.

Definition NaN : JsNumber := None.

(** The double nearest to an integer, ties to the even significand: exact
    below 2^53 in magnitude; above, the 53 leading bits rounded; not
    finite once the rounded value reaches 2^1024. *)
Definition double_of_Z (n : Z) : JsNumber :=
  let a := Z.abs n in
  if a <? 9007199254740992 then Some n
  else
    let e := Z.log2 a - 52 in
    let q := Z.shiftr a e in
    let r := a - Z.shiftl q e in
    let half := Z.shiftl 1 (e - 1) in
    let q' := if ((half <? r) || ((r =? half) && Z.odd q))%bool then q + 1 else q in
    let m := Z.shiftl q' e in
    if m <? Z.shiftl 1 1024 then Some (Z.sgn n * m) else None.

(** [x * k] for an integer constant [k], rounded as the product of two
    doubles is; a value that is not finite stays so. *)
Definition times (x : JsNumber) (k : Z) : JsNumber :=
  match x with
  | Some v => double_of_Z (v * k)
  | None => None
  end.

Definition digit_value (c : ascii) : option Z :=
  let n := N_of_ascii c in
  if (N.leb 48 n && N.leb n 57)%bool then Some (Z.of_N n - 48) else None.

(** The longest prefix of decimal digits, read as a number; [acc] holds the
    digits read so far ([None] before the first one). *)
Fixpoint parse_digits (s : string) (acc : option Z) : option Z :=
  match s with
  | EmptyString => acc
  | String c s' =>
      match digit_value c with
      | Some d => parse_digits s' (Some (match acc with Some a => 10 * a + d | None => d end))
      | None => acc
      end
  end.

(** The number for the digits read, with its sign: NaN without a digit,
    else the double nearest to the signed integer. *)
Definition number_of_digits (negative : bool) (digits : option Z) : JsNumber :=
  match digits with
  | Some v => double_of_Z (if negative then - v else v)
  | None => NaN
  end.

(** [parseInt(s, 10)]: leading white space is skipped, one sign is read,
    then the longest run of decimal digits; no digit gives NaN; the
    integer read is returned as the nearest double. *)
Definition parseInt10 (s : string) : JsNumber :=
  match trimStart s with
  | String "-" rest => number_of_digits true (parse_digits rest None)
  | String "+" rest => number_of_digits false (parse_digits rest None)
  | t => number_of_digits false (parse_digits t None)
  end.

(** Values produced by [JSON.parse] (numbers restricted to integers). An
    object is the list of its own properties in enumeration order. *)
Inductive json : Type :=
| JNull
| JBool (b : bool)
| JNum (z : Z)
| JStr (s : string)
| JArr (items : list json)
| JObj (props : list (string * json)).

Definition truthy (j : json) : bool :=
  match j with
  | JNull => false
  | JBool b => b
  | JNum z => negb (z =? 0)
  | JStr s => truthy_string s
  | JArr _ | JObj _ => true
  end.

(** [typeof j === 'object'] *)
Definition typeof_object (j : json) : bool :=
  match j with
  | JNull | JArr _ | JObj _ => true
  | _ => false
  end.

(** Own property lookup, [obj[key]]; [None] is [undefined]. *)
Fixpoint get_prop (props : list (string * json)) (key : string) : option json :=
  match props with
  | [] => None
  | (k, v) :: rest => if String.eqb k key then Some v else get_prop rest key
  end.

Definition truthy_opt (o : option json) : bool :=
  match o with Some j => truthy j | None => false end.

Definition hex_digit (n : N) : ascii :=
  ascii_of_N (if N.ltb n 10 then 48 + n else 87 + n).

(** One code unit inside a JSON string literal, as [JSON.stringify] quotes it. *)
Definition quote_char (c : ascii) : string :=
  let n := N_of_ascii c in
  if N.eqb n 8 then "\b"
  else if N.eqb n 9 then "\t"
  else if N.eqb n 10 then "\n"
  else if N.eqb n 12 then "\f"
  else if N.eqb n 13 then "\r"
  else if N.eqb n 34 then String "\" (String c EmptyString)
  else if N.eqb n 92 then "\\"
  else if N.ltb n 32 then
    "\u00" ++ String (hex_digit (N.div n 16)) (String (hex_digit (N.modulo n 16)) EmptyString)
  else String c EmptyString.

Fixpoint quote_chars (s : string) : string :=
  match s with
  | EmptyString => EmptyString
  | String c s' => quote_char c ++ quote_chars s'
  end.

Definition dquote : string := String (ascii_of_N 34) EmptyString.

Definition quote (s : string) : string := dquote ++ quote_chars s ++ dquote.

Definition string_of_Z (z : Z) : string := NilEmpty.string_of_int (Z.to_int z).

Fixpoint join (sep : string) (l : list string) : string :=
  match l with
  | [] => EmptyString
  | [x] => x
  | x :: rest => x ++ sep ++ join sep rest
  end.

(** [JSON.stringify(j)] *)
Fixpoint stringify (j : json) : string :=
  match j with
  | JNull => "null"
  | JBool true => "true"
  | JBool false => "false"
  | JNum z => string_of_Z z
  | JStr s => quote s
  | JArr items => "[" ++ join "," (map stringify items) ++ "]"
  | JObj props =>
      "{" ++ join "," (map (fun kv => quote (fst kv) ++ ":" ++ stringify (snd kv)) props) ++ "}"
  end.

(** What a [catch] clause receives: an [Error] instance with its [name] and
    [message], or any other value. *)
Inductive Thrown : Type :=
| ErrorObject (name message : string)
| OtherValue.

Definition instanceof_Error (t : Thrown) : bool :=
  match t with ErrorObject _ _ => true | OtherValue => false end.

Definition TypeError (message : string) : Thrown := ErrorObject "TypeError" message.

(** [new Error(message)] *)
Definition Error (message : string) : Thrown := ErrorObject "Error" message.

(** The rejection of a [fetch] whose [AbortController] was aborted without a
    reason (the message is V8's). *)
Definition AbortError : Thrown := ErrorObject "AbortError" "signal is aborted without reason".

End JS.

(** ** The [images] table and its row-level security policies

    From the migration: columns [id] (primary key, default
    [gen_random_uuid()]), [user_id], [image_url], [prompt] (all NOT NULL) and
    [created_at] (default [now()]); row-level security with one INSERT
    policy and one SELECT policy for the [authenticated] role, both
    comparing [auth.uid()] with [user_id]. *)

Module Db.

Record ImageRow : Type := mkRow {
  id : string;
  user_id : string;
  image_url : string;
  prompt : string;
  created_at : Z
}.

(** The object handed to [insert]: [image_url] is whatever JavaScript value
    the caller holds, possibly [null]. *)
Record NewImage : Type := mkNew {
  new_user_id : string;
  new_image_url : option string;
  new_prompt : string
}.

(** The table, and the identity the store derives from the client's
    token ([auth.uid()]; [None] for an anonymous client). *)
Record World : Type := mkWorld {
  images : list ImageRow;
  auth_uid : option string
}.

(** What one request meets at the store: whether the store refuses it for
    a reason other than the constraints modelled below (network or service
    fault, the foreign key on [auth.users]), and the values the column
    defaults produce. *)
Record Conditions : Type := mkConditions {
  fault : bool;
  fresh_id : string;
  now : Z
}.

(** [auth.uid() = user_id], for the [authenticated] role only. *)
Definition policy (uid : option string) (owner : string) : bool :=
  match uid with
  | Some u => String.eqb u owner
  | None => false
  end.

Definition id_taken (rows : list ImageRow) (i : string) : bool :=
  existsb (fun r => String.eqb (id r) i) rows.

(** [from('images').insert([row])]: the new table and whether the call
    reported an error. *)
Definition insert (w : World) (c : Conditions) (r : NewImage) : World * bool :=
  if fault c then (w, true)
  else if negb (policy (auth_uid w) (new_user_id r)) then (w, true)
  else match new_image_url r with
       | None => (w, true)
       | Some url =>
           if id_taken (images w) (fresh_id c) then (w, true)
           else (mkWorld (images w ++ [mkRow (fresh_id c) (new_user_id r) url (new_prompt r) (now c)])
                         (auth_uid w),
                 false)
       end.

(** ORDER BY created_at DESC, as a stable insertion sort. *)
Fixpoint insert_desc (r : ImageRow) (l : list ImageRow) : list ImageRow :=
  match l with
  | [] => [r]
  | x :: rest => if created_at x <? created_at r then r :: l else x :: insert_desc r rest
  end.

Fixpoint order_desc (l : list ImageRow) : list ImageRow :=
  match l with
  | [] => []
  | x :: rest => insert_desc x (order_desc rest)
  end.

(** [from('images').select('*').eq('user_id', uid).order('created_at',
    { ascending: false })]: [None] when the call reports an error. *)
Definition select_by_owner (w : World) (c : Conditions) (uid : string) : option (list ImageRow) :=
  if fault c then None
  else Some (order_desc
               (filter (fun r => String.eqb (user_id r) uid)
                       (filter (fun r => policy (auth_uid w) (user_id r)) (images w)))).

End Db.

(** ** The [Home] component: generateImage and saveImage *)

Module Home.
Import JS.
Local Open Scope list_scope.

(** The authenticated user as [useAuth] exposes it; the component reads
    [user.id] only. *)
Record User : Type := mkUser { uid : string }.

(** The module-level client handle: built once from the configured API key,
    left [undefined] when the key is missing or empty. *)
Inductive HfInference : Type := HfClient (apiKey : string).

Definition init_hf (apiKey : option string) : option HfInference :=
  match apiKey with
  | Some k => if truthy_string k then Some (HfClient k) else None
  | None => None
  end.

Definition MAX_RETRIES : nat := 3.
Definition RETRY_DELAY : Z := 2000.

(** The abort timer armed before each fetch, in milliseconds. *)
Definition FETCH_TIMEOUT : Z := 30000.

Definition style_suffix : string :=
  ", high quality, detailed, cartoon style, digital art, vibrant colors, sharp focus, clean lines, professional illustration".

Definition enhancedPrompt (prompt : string) : string := (prompt ++ style_suffix)%string.

Definition endpoint : string :=
  "https://api-inference.huggingface.co/models/stabilityai/stable-diffusion-2".

Definition negative_prompt_text : string :=
  "blurry, bad quality, noise, grain, distorted, deformed, disfigured, poorly drawn, bad anatomy, wrong anatomy, extra limb, missing limb, floating limbs, disconnected limbs, mutation, mutated, ugly, disgusting, out of frame, duplicate, morbid, mutilated, poorly drawn hands, poorly drawn feet, poorly drawn face, out of frame, extra limbs, bad anatomy, gross proportions, text, error, missing fingers, missing arms, missing legs, extra digits, fewer digits".

Record Parameters : Type := mkParameters {
  negative_prompt : string;
  num_inference_steps : Z;
  guidance_scale : Z;
  height : Z;
  width : Z;
  seed : Z
}.

(** The POST the component issues. *)
Record Request : Type := mkRequest {
  url : string;
  authorization : string;
  inputs : string;
  parameters : Parameters
}.

(** What becomes of a successful response's body: [response.blob()] may
    reject; the [FileReader] may fail (its [result] is then [null]) or
    produce the data URL. *)
Inductive BlobRead : Type :=
| BlobRejected (e : Thrown)
| ReadFailed
| ReadOk (dataUrl : string).

(** A response as the component observes it: the status line, the
    [Retry-After] header, what [response.json()] makes of the body
    ([None] when it rejects) and what reading the body as an image gives. *)
Record Response : Type := mkResponse {
  status : Z;
  retry_after : option string;
  json_body : option json;
  blob_read : BlobRead
}.

(** [response.ok] *)
Definition ok (r : Response) : bool := (200 <=? status r) && (status r <=? 299).

Inductive Settle : Type :=
| Resolved (r : Response)
| Rejected (e : Thrown).

(** One attempt as the environment plays it: after how many milliseconds
    the fetch would settle by itself and how, and the value drawn for the
    seed. *)
Record Attempt : Type := mkAttempt {
  latency : Z;
  settle : Settle;
  random_seed : Z
}.

(** The effects of [Home], in program order. [ECall] marks the entry into
    generateImage with its argument; [EFetchWait] is the time the [await]
    of the fetch took; [EDelay] is a call of [delay]; [EUncaught] is an
    error thrown where nothing catches it. *)
Inductive Event : Type :=
| ECall (retryCount : nat)
| EToastError (message : string)
| EToastSuccess (message : string)
| EConsoleError (label : string)
| EUncaught (e : Thrown)
| ESetLoading (b : bool)
| ESetGeneratedImage (image : option string)
| EFetch (req : Request)
| EFetchWait (ms : Z)
| EDelay (ms : JsNumber)
| EInsert (row : Db.NewImage).

(** The exits of saveImage. *)
Inductive SaveExit : Type :=
| SaveNoUser
| SaveFailed
| Saved.

(** The exits of generateImage: the three guards, the error notification
    of the catch clause, or the load-end handler of the reader. *)
Inductive Exit : Type :=
| NoUser
| NoPrompt
| NoClient
| Surfaced (e : Thrown)
| Displayed (image : option string) (saved : SaveExit).

Record Run : Type := mkRun {
  events : list Event;
  exit : Exit;
  world : Db.World
}.

Definition msg_sign_in_save : string := "Please sign in to save images".
Definition msg_save_failed : string := "Failed to save image".
Definition msg_saved : string := "Image saved to your gallery!".
Definition msg_sign_in_generate : string := "Please sign in to generate images".
Definition msg_enter_prompt : string := "Please enter a prompt".
Definition msg_no_client : string := "API client is not properly initialized".
Definition msg_generated : string := "Image generated successfully!".
Definition msg_generic_failure : string := "Failed to generate image. Please try again.".
Definition cuda_marker : string := "CUDA out of memory".
Definition fetch_marker : string := "Failed to fetch".

(** Messages of the TypeErrors the engine raises (V8's wording). *)
Definition body_used : Thrown :=
  TypeError "Failed to execute 'text' on 'Response': body stream already read".
Definition some_not_function : Thrown :=
  TypeError "errorData.warnings.some is not a function".
Definition includes_not_function : Thrown :=
  TypeError "w.includes is not a function".
Definition includes_of_null : Thrown :=
  TypeError "Cannot read properties of null (reading 'includes')".
Definition error_of_null : Thrown :=
  TypeError "Cannot read properties of null (reading 'error')".

(** [fetch(..., { signal })] raced against [setTimeout(() =>
    controller.abort(), 30000)]: the time spent waiting and what the
    [await] yields. *)
Definition fetch_with_abort (a : Attempt) : Z * Settle :=
  if latency a <? FETCH_TIMEOUT then (latency a, settle a)
  else (FETCH_TIMEOUT, Rejected AbortError).

(** [await response.json().catch(() => null) || await response.text()]:
    [json()] has consumed the body, so the fallback [text()] rejects. *)
Definition read_error_data (r : Response) : Thrown + json :=
  match json_body r with
  | Some j => if truthy j then inr j else inl body_used
  | None => inl body_used
  end.

Definition is_marker (j : json) : bool :=
  match j with JStr s => String.eqb s cuda_marker | _ => false end.

(** [warnings.some((w) => w.includes('CUDA out of memory'))] on an array. *)
Fixpoint some_includes (ws : list json) : Thrown + bool :=
  match ws with
  | [] => inr false
  | w :: rest =>
      match w with
      | JStr s => if includes s cuda_marker then inr true else some_includes rest
      | JArr items => if existsb is_marker items then inr true else some_includes rest
      | JNull => inl includes_of_null
      | JBool _ | JNum _ | JObj _ => inl includes_not_function
      end
  end.

(** The condition of the resource-exhaustion branch:
    [typeof errorData === 'object' && errorData.error &&
     errorData.warnings && errorData.warnings.some(...)]. *)
Definition cuda_check (errorData : json) : Thrown + bool :=
  if typeof_object errorData then
    match errorData with
    | JNull => inl error_of_null
    | JObj props =>
        if truthy_opt (get_prop props "error") then
          match get_prop props "warnings" with
          | Some w =>
              if truthy w then
                match w with
                | JArr ws => some_includes ws
                | _ => inl some_not_function
                end
              else inr false
          | None => inr false
          end
        else inr false
    | _ => inr false
    end
  else inr false.

(** [response.headers.get('Retry-After') || '5'] *)
Definition retry_after_or_default (r : Response) : string :=
  match retry_after r with
  | Some h => if truthy_string h then h else "5"
  | None => "5"
  end.

(** [retryAfter * 1000], the argument of the rate-limit [delay]. *)
Definition retry_after_ms (r : Response) : JsNumber :=
  times (parseInt10 (retry_after_or_default r)) 1000.

(** How the body of the [try] block ends once the fetch has settled. *)
Inductive TryResult : Type :=
| TryRetry (ms : JsNumber)
| TryThrow (e : Thrown)
| TryRead (result : option string).

Definition try_body (retryCount : nat) (s : Settle) : TryResult :=
  match s with
  | Rejected e => TryThrow e
  | Resolved r =>
      if negb (ok r) then
        match read_error_data r with
        | inl e => TryThrow e
        | inr errorData =>
            match cuda_check errorData with
            | inl e => TryThrow e
            | inr cuda =>
                if (cuda && (retryCount <? MAX_RETRIES)%nat)%bool then
                  TryRetry (Some RETRY_DELAY)
                else if ((status r =? 429) && (retryCount <? MAX_RETRIES)%nat)%bool then
                  TryRetry (retry_after_ms r)
                else
                  TryThrow (Error ("API request failed: " ++ stringify errorData)%string)
            end
        end
      else
        match blob_read r with
        | BlobRejected e => TryThrow e
        | ReadFailed => TryRead None
        | ReadOk dataUrl => TryRead (Some dataUrl)
        end
  end.

(** The retry condition of the [catch] clause. *)
Definition catch_retries (retryCount : nat) (e : Thrown) : bool :=
  match e with
  | ErrorObject name message =>
      (String.eqb name "AbortError" || includes message fetch_marker)
      && (retryCount <? MAX_RETRIES)%nat
  | OtherValue => false
  end.

(** The text of the error notification of the [catch] clause. *)
Definition errorMessage (e : Thrown) : string :=
  match e with
  | ErrorObject _ message => message
  | OtherValue => msg_generic_failure
  end.

Definition prepend (evs : list Event) (r : Run) : Run :=
  mkRun (evs ++ events r) (exit r) (world r).

Section Closure.

(** What one render of the component closes over, the module-level
    configuration, and the environment of the run. *)
Variable user : option User.
Variable prompt : string.
Variable apiKey : option string.
Variable upstream : nat -> Attempt.
Variable store : Db.Conditions.

Definition hf : option HfInference := init_hf apiKey.

Definition bearer : string :=
  ("Bearer " ++ match apiKey with Some k => k | None => "undefined" end)%string.

Definition request (a : Attempt) : Request :=
  mkRequest endpoint bearer (enhancedPrompt prompt)
            (mkParameters negative_prompt_text 50 9 768 768 (random_seed a)).

Definition saveImage (w : Db.World) (imageUrl : option string) (prompt' : string)
  : list Event * SaveExit * Db.World :=
  match user with
  | None => ([EToastError msg_sign_in_save], SaveNoUser, w)
  | Some u =>
      let row := Db.mkNew (uid u) imageUrl prompt' in
      let (w', error) := Db.insert w store row in
      if error then
        ([EInsert row; EConsoleError "Error saving image:"; EToastError msg_save_failed],
         SaveFailed, w')
      else ([EInsert row; EToastSuccess msg_saved], Saved, w')
  end.

(** The reader's handlers, run after generateImage has returned: on a read
    failure the error handler throws (nothing catches it) and the
    load-end handler still runs, with a [null] result. *)
Definition onloadend (w : Db.World) (result : option string) : Run :=
  let '(evs, saved, w') := saveImage w result prompt in
  mkRun (match result with None => [EUncaught (Error "Failed to process the generated image")] | Some _ => [] end
         ++ [ESetGeneratedImage result] ++ evs ++ [EToastSuccess msg_generated])
        (Displayed result saved) w'.

(** generateImage(retryCount). [pending] holds the [finally] of the caller,
    which runs as soon as this call first suspends or returns. [None]: out
    of fuel. *)
Fixpoint generateImage_from (fuel : nat) (w : Db.World) (retryCount : nat)
         (pending : list Event) : option Run :=
  match fuel with
  | O => None
  | S fuel' =>
      match user with
      | None =>
          Some (mkRun (ECall retryCount :: EToastError msg_sign_in_generate :: pending) NoUser w)
      | Some _ =>
          if negb (truthy_string (trim prompt)) then
            Some (mkRun (ECall retryCount :: EToastError msg_enter_prompt :: pending) NoPrompt w)
          else
            match hf with
            | None =>
                Some (mkRun (ECall retryCount :: EToastError msg_no_client :: pending) NoClient w)
            | Some _ =>
                let a := upstream retryCount in
                let (waited, settled) := fetch_with_abort a in
                let started :=
                  ECall retryCount :: ESetLoading true :: EFetch (request a)
                    :: pending ++ [EFetchWait waited] in
                let again (evs : list Event) (ms : JsNumber) :=
                  option_map (prepend (evs ++ [EDelay ms]))
                             (generateImage_from fuel' w (S retryCount) [ESetLoading false]) in
                match try_body retryCount settled with
                | TryRetry ms => again started ms
                | TryRead result =>
                    Some (prepend (started ++ [ESetLoading false]) (onloadend w result))
                | TryThrow e =>
                    let caught := started ++ [EConsoleError "Error generating image:"] in
                    if catch_retries retryCount e then again caught (Some RETRY_DELAY)
                    else
                      Some (mkRun (caught ++ [EToastError (errorMessage e); ESetLoading false])
                                  (Surfaced e) w)
                end
            end
      end
  end.

(** generateImage(), as the button and the Enter key call it. *)
Definition generateImage (w : Db.World) : option Run :=
  generateImage_from (S MAX_RETRIES) w 0%nat [].

(** The same function read in three parts, for the proofs: the guards, one
    attempt up to the point where it either finishes or asks for another
    one, and the recursion ([generateImage_from_unfold] below). *)
Definition guard : option (string * Exit) :=
  match user with
  | None => Some (msg_sign_in_generate, NoUser)
  | Some _ =>
      if negb (truthy_string (trim prompt)) then Some (msg_enter_prompt, NoPrompt)
      else match hf with
           | None => Some (msg_no_client, NoClient)
           | Some _ => None
           end
  end.

Definition started (retryCount : nat) (pending : list Event) : list Event :=
  ECall retryCount :: ESetLoading true :: EFetch (request (upstream retryCount))
    :: pending ++ [EFetchWait (fst (fetch_with_abort (upstream retryCount)))].

Inductive Step : Type :=
| Again (evs : list Event) (ms : JsNumber)
| Finish (run : Run).

Definition attempt (w : Db.World) (retryCount : nat) (pending : list Event) : Step :=
  match try_body retryCount (snd (fetch_with_abort (upstream retryCount))) with
  | TryRetry ms => Again (started retryCount pending) ms
  | TryRead result =>
      Finish (prepend (started retryCount pending ++ [ESetLoading false]) (onloadend w result))
  | TryThrow e =>
      let caught := started retryCount pending ++ [EConsoleError "Error generating image:"] in
      if catch_retries retryCount e then Again caught (Some RETRY_DELAY)
      else Finish (mkRun (caught ++ [EToastError (errorMessage e); ESetLoading false])
                         (Surfaced e) w)
  end.

End Closure.

End Home.

(** ** The [Profile] component: loadImages *)

Module Profile.
Local Open Scope list_scope.

Inductive Event : Type :=
| ESetLoading (b : bool)
| ESetImages (rows : list Db.ImageRow)
| EConsoleError (label : string).

(** loadImages, the body of the effect: the events, and the rows handed to
    [setImages] when the query answered. *)
Definition loadImages (user : option Home.User) (w : Db.World) (c : Db.Conditions)
  : list Event * option (list Db.ImageRow) :=
  match user with
  | None => ([ESetLoading false], None)
  | Some u =>
      match Db.select_by_owner w c (Home.uid u) with
      | None => ([EConsoleError "Error loading images:"], None)
      | Some data => ([ESetImages data; ESetLoading false], Some data)
      end
  end.

End Profile.

(** ** Vocabulary of the specification, read off runs *)

Module Contract.
Import JS Home.
Local Open Scope list_scope.

(** The failure taxonomy of the specification. *)
Inductive Failure : Type :=
| ConfigurationError
| NoSession
| EmptyPrompt
| Timeout
| UpstreamError
| StoreError.

Definition is_abort (e : Thrown) : bool :=
  match e with
  | ErrorObject name _ => String.eqb name "AbortError"
  | OtherValue => false
  end.

(** The failure an exit of generateImage stands for: each guard has its
    own; an error surfaced by the catch clause is a Timeout when it is the
    abort of the 30 s timer and an UpstreamError otherwise. *)
Definition failure_of (x : Exit) : option Failure :=
  match x with
  | NoUser => Some NoSession
  | NoPrompt => Some EmptyPrompt
  | NoClient => Some ConfigurationError
  | Surfaced e => Some (if is_abort e then Timeout else UpstreamError)
  | Displayed _ _ => None
  end.

Definition save_failure_of (x : SaveExit) : option Failure :=
  match x with
  | SaveNoUser => Some NoSession
  | SaveFailed => Some StoreError
  | Saved => None
  end.

(** A transport-level failure as the catch clause recognises it: the abort
    of the timer, or an error whose message contains 'Failed to fetch'. *)
Definition transport_failure (e : Thrown) : bool :=
  match e with
  | ErrorObject name message => String.eqb name "AbortError" || includes message fetch_marker
  | OtherValue => false
  end.



(** Projections of a trace. *)
Definition calls (evs : list Event) : list nat :=
  flat_map (fun e => match e with ECall n => [n] | _ => [] end) evs.

Definition fetches (evs : list Event) : list Request :=
  flat_map (fun e => match e with EFetch r => [r] | _ => [] end) evs.

Definition delays (evs : list Event) : list JsNumber :=
  flat_map (fun e => match e with EDelay ms => [ms] | _ => [] end) evs.

Definition inserts (evs : list Event) : list Db.NewImage :=
  flat_map (fun e => match e with EInsert r => [r] | _ => [] end) evs.

(** The state setters a trace runs. *)
Definition state_changes (evs : list Event) : list Event :=
  filter (fun e => match e with ESetLoading _ | ESetGeneratedImage _ | EInsert _ => true | _ => false end) evs.

(** The React state of [Home] that the operations write. *)
Record Ui : Type := mkUi {
  loading : bool;
  generatedImage : option string
}.

Definition ui_step (ui : Ui) (e : Event) : Ui :=
  match e with
  | ESetLoading b => mkUi b (generatedImage ui)
  | ESetGeneratedImage image => mkUi (loading ui) image
  | _ => ui
  end.

Definition ui_after (ui : Ui) (evs : list Event) : Ui := fold_left ui_step evs ui.

(** The configured key is missing: undefined or empty. *)
Definition key_absent (apiKey : option string) : Prop :=
  apiKey = None \/ apiKey = Some EmptyString.

(** Most recent first. *)
Definition newest_first (rows : list Db.ImageRow) : Prop :=
  StronglySorted (fun a b => Db.created_at b <= Db.created_at a) rows.

End Contract.

(** ** Sample inputs, used to exercise the statements below *)

Module Samples.
Import JS Home.
Local Open Scope list_scope.

Definition alice : User := mkUser "alice".
Definition key : option string := Some "hf_key".
Definition world0 : Db.World := Db.mkWorld [] (Some "alice").
Definition conditions0 : Db.Conditions := Db.mkConditions false "img-1" 1000.


Definition rate_body : json := JObj [("error", JStr "Rate limit reached")].

Definition picture : string := "data:image/jpeg;base64,/9j/4AAQ".


(** 429 with a JSON error body and the given [Retry-After] header. *)
Definition limited (header : option string) : Response :=
  mkResponse 429 header (Some rate_body) ReadFailed.


(** 429 with a plain-text body. *)
Definition limited_plain : Response := mkResponse 429 (Some "1") None ReadFailed.

Definition success : Response := mkResponse 200 None None (ReadOk picture).

Definition answers (r : Response) : Attempt := mkAttempt 1200 (Resolved r) 7.

(** No answer within the 30 s of the timer. *)
Definition hangs : Attempt := mkAttempt 45000 (Resolved success) 7.

(** The store refuses every request. *)
Definition store_down : Db.Conditions := Db.mkConditions true "img-1" 1000.

Definition no_run : Run := mkRun [] NoUser world0.

(** The run of a first-attempt success with the store up, and with the
    store down. *)
Definition saved_run : Run :=
  Eval vm_compute in
    match generateImage (Some alice) "a cat" key (fun _ => answers success) conditions0 world0 with
    | Some run => run
    | None => no_run
    end.

Definition unsaved_run : Run :=
  Eval vm_compute in
    match generateImage (Some alice) "a cat" key (fun _ => answers success) store_down world0 with
    | Some run => run
    | None => no_run
    end.

(** A table with rows of two owners. *)
Definition gallery : Db.World :=
  Db.mkWorld [Db.mkRow "a" "alice" "url-a" "a cat" 10;
              Db.mkRow "b" "bob" "url-b" "a dog" 20;
              Db.mkRow "c" "alice" "url-c" "a fox" 30]
             (Some "alice").

End Samples.

(** ** The rest of [Home]: the two triggers, and more to read off a run *)

Module HomeView.
Import JS Home Contract.
Local Open Scope list_scope.

Definition signed_in (user : option User) : bool :=
  match user with Some _ => true | None => false end.

(** handleKeyPress: whether the key press calls generateImage(). *)
Definition handleKeyPress (key : string) (loading : bool) (user : option User) : bool :=
  String.eqb key "Enter" && negb loading && signed_in user.

(** The [disabled] attribute of the Generate button. *)
Definition button_disabled (loading : bool) (user : option User) : bool :=
  loading || negb (signed_in user).

(** The notifications of a trace. *)
Definition toasts (evs : list Event) : list Event :=
  filter (fun e => match e with EToastError _ | EToastSuccess _ => true | _ => false end) evs.

Definition fetch_waits (evs : list Event) : list Z :=
  flat_map (fun e => match e with EFetchWait ms => [ms] | _ => [] end) evs.

(** What inspecting the body of a failed response throws, if it does:
    reading it (line 102) or testing it for the warning (lines 105-108). *)
Definition body_fault (r : Response) : option Thrown :=
  match read_error_data r with
  | inl e => Some e
  | inr errorData =>
      match cuda_check errorData with
      | inl e => Some e
      | inr _ => None
      end
  end.

(** The pending events a call can be given: none for the first call, the
    [finally] of the caller for the others. *)
Definition pending_ok (pending : list Event) : Prop :=
  pending = [] \/ pending = [ESetLoading false].

(** The delay of a retry is the fixed one, or the hint of a 429 that one
    of the first three attempts received. *)
Definition delay_explained (upstream : nat -> Attempt) (ms : JsNumber) : Prop :=
  ms = Some RETRY_DELAY \/
  exists n r,
    (n < MAX_RETRIES)%nat /\ settle (upstream n) = Resolved r /\
    latency (upstream n) < FETCH_TIMEOUT /\ status r = 429 /\ ms = retry_after_ms r.

End HomeView.

(** ** The rest of [Profile]: its state and its three renderings *)

Module ProfileView.
Import Profile.
Local Open Scope list_scope.

(** The three [useState] cells of the component. *)
Record State : Type := mkState {
  images : list Db.ImageRow;
  loading : bool;
  selectedImage : option Db.ImageRow
}.

(** The state at mount. *)
Definition initial : State := mkState [] true None.

Definition apply_event (s : State) (e : Event) : State :=
  match e with
  | ESetLoading b => mkState (images s) b (selectedImage s)
  | ESetImages rows => mkState rows (loading s) (selectedImage s)
  | EConsoleError _ => s
  end.

Definition apply_events (s : State) (evs : list Event) : State :=
  fold_left apply_event evs s.

(** One run of the effect to its end: loadImages for the user of the
    render that started it, against the store as the query finds it. *)
Definition after_load (user : option Home.User) (w : Db.World) (c : Db.Conditions)
           (s : State) : State :=
  apply_events s (fst (loadImages user w c)).

(** A click on a card: [setSelectedImage(image)]. *)
Definition click_card (row : Db.ImageRow) (s : State) : State :=
  mkState (images s) (loading s) (Some row).

(** What the component renders: the sign-in prompt, the spinner, or the
    page with its cards (none: 'No images yet') and the modal, which shows
    the selected image when there is one. *)
Inductive View : Type :=
| PleaseSignIn
| Spinner
| Page (cards : list Db.ImageRow) (modal : option Db.ImageRow).

Definition render (user : option Home.User) (s : State) : View :=
  match user with
  | None => PleaseSignIn
  | Some _ => if loading s then Spinner else Page (images s) (selectedImage s)
  end.

End ProfileView.

(** ** The [AuthModal] component, as the navbar opens and closes it *)

Module AuthModal.
Import JS.
Local Open Scope list_scope.

(** The three [useState] cells of the modal. *)
Record Form : Type := mkForm {
  isLogin : bool;
  email : string;
  password : string
}.

Inductive Event : Type :=
| ESignIn (email password : string)
| ESignUp (email password : string)
| EToastSuccess (message : string)
| EToastError (message : string)
| EOnClose.

(** [error instanceof Error ? error.message : 'Authentication failed'] *)
Definition rejection_text (e : Thrown) : string :=
  match e with
  | ErrorObject _ message => message
  | OtherValue => "Authentication failed"
  end.

(** handleSubmit, for a submit event: [outcome] is what the awaited
    signIn or signUp throws, if it throws. *)
Definition handleSubmit (f : Form) (outcome : option Thrown) : list Event :=
  (if isLogin f then ESignIn (email f) (password f) else ESignUp (email f) (password f))
    :: match outcome with
       | None =>
           [EToastSuccess (if isLogin f then "Successfully signed in!"
                           else "Account created successfully!");
            EOnClose]
       | Some e => [EToastError (rejection_text e)]
       end.

(** The modal as [Navbar] holds it: [isAuthModalOpen], and the form, which
    lives on while the modal is closed (the component stays mounted and
    returns null). *)
Record Modal : Type := mkModal {
  isOpen : bool;
  form : Form
}.

Definition closed_empty : Modal := mkModal false (mkForm true EmptyString EmptyString).

Inductive Action : Type :=
| ClickSignIn
| TypeEmail (s : string)
| TypePassword (s : string)
| ClickToggle
| Submit (outcome : option Thrown)
| ClickClose.

Definition closes (evs : list Event) : bool :=
  existsb (fun e => match e with EOnClose => true | _ => false end) evs.

(** The notifications of a trace, and the rejections met by a list of
    actions. *)
Definition error_toasts (evs : list Event) : list string :=
  flat_map (fun e => match e with EToastError m => [m] | _ => [] end) evs.

Definition success_toasts (evs : list Event) : list string :=
  flat_map (fun e => match e with EToastSuccess m => [m] | _ => [] end) evs.

(** One user action. The Sign In button of the navbar opens the modal;
    everything else acts on the modal's own controls, which exist only
    while it is open. *)
Definition step (m : Modal) (a : Action) : Modal * list Event :=
  match a with
  | ClickSignIn => (mkModal true (form m), [])
  | _ =>
      if isOpen m then
        match a with
        | ClickSignIn => (m, [])
        | TypeEmail s => (mkModal true (mkForm (isLogin (form m)) s (password (form m))), [])
        | TypePassword s => (mkModal true (mkForm (isLogin (form m)) (email (form m)) s), [])
        | ClickToggle =>
            (mkModal true (mkForm (negb (isLogin (form m))) (email (form m)) (password (form m))),
             [])
        | Submit outcome =>
            let evs := handleSubmit (form m) outcome in
            (mkModal (negb (closes evs)) (form m), evs)
        | ClickClose => (mkModal false (form m), [EOnClose])
        end
      else (m, [])
  end.

Definition rejections (actions : list Action) : list Thrown :=
  flat_map (fun a => match a with Submit (Some e) => [e] | _ => [] end) actions.

Definition is_typing (a : Action) : bool :=
  match a with TypeEmail _ | TypePassword _ => true | _ => false end.

Definition ends_session (a : Action) : bool :=
  match a with ClickClose | Submit None => true | _ => false end.

Fixpoint run (m : Modal) (actions : list Action) : Modal * list Event :=
  match actions with
  | [] => (m, [])
  | a :: rest =>
      let (m1, evs1) := step m a in
      let (m2, evs2) := run m1 rest in
      (m2, evs1 ++ evs2)
  end.

End AuthModal.

(** ** More sample inputs *)

Module MoreSamples.
Import JS Home.
Local Open Scope list_scope.

Definition bob : User := mkUser "bob".

(** The run against an upstream that never answers in time. *)
Definition timed_out_run : Run :=
  Eval vm_compute in
    match generateImage (Some Samples.alice) "a cat" Samples.key (fun _ => Samples.hangs)
                        Samples.conditions0 Samples.world0 with
    | Some run => run
    | None => Samples.no_run
    end.

(** A store in which Alice's gallery was filled at time 30 at the latest. *)
Definition later : Db.Conditions := Db.mkConditions false "img-9" 40.

End MoreSamples.

(** * Properties *)

(** ** Facts about the JavaScript primitives *)

Module JSFacts.
Import JS.

Lemma trimStart_blank (s : string) : blank s = true -> trimStart s = EmptyString.
Proof.
  induction s as [|c s IH]; simpl; [reflexivity|].
  intros H. apply andb_true_iff in H. destruct H as [Hc Hs].
  rewrite Hc. now apply IH.
Qed.

Lemma trimEnd_empty_blank (s : string) : trimEnd s = EmptyString -> blank s = true.
Proof.
  induction s as [|c s IH]; simpl; [reflexivity|].
  destruct (trimEnd s) eqn:E; [|discriminate].
  destruct (is_whitespace c); [|discriminate].
  intros _. now rewrite IH.
Qed.

Lemma blank_trimStart (s : string) : blank (trimStart s) = true -> blank s = true.
Proof.
  induction s as [|c s IH]; simpl; [reflexivity|].
  destruct (is_whitespace c) eqn:E; simpl.
  - exact IH.
  - rewrite E. discriminate.
Qed.

(** [!s.trim()] holds exactly for the strings made of white space only. *)
Lemma trim_falsy_iff_blank (s : string) :
  truthy_string (trim s) = false <-> blank s = true.
Proof.
  unfold trim. split.
  - intros H. apply blank_trimStart, trimEnd_empty_blank.
    destruct (trimEnd (trimStart s)); [reflexivity|discriminate].
  - intros H. now rewrite (trimStart_blank s H).
Qed.










End JSFacts.

(** ** Facts about the store *)

Module DbFacts.
Import Db.
Local Open Scope list_scope.

Lemma insert_desc_perm (r : ImageRow) (l : list ImageRow) :
  Permutation (insert_desc r l) (r :: l).
Proof.
  induction l as [|x l IH]; simpl; [apply Permutation_refl|].
  destruct (created_at x <? created_at r).
  - apply Permutation_refl.
  - eapply Permutation_trans; [apply perm_skip, IH|apply perm_swap].
Qed.

Lemma order_desc_perm (l : list ImageRow) : Permutation (order_desc l) l.
Proof.
  induction l as [|x l IH]; simpl; [constructor|].
  eapply Permutation_trans; [apply insert_desc_perm|now apply perm_skip].
Qed.

Lemma insert_desc_sorted (r : ImageRow) (l : list ImageRow) :
  StronglySorted (fun a b => created_at b <= created_at a) l ->
  StronglySorted (fun a b => created_at b <= created_at a) (insert_desc r l).
Proof.
  induction l as [|x l IH]; simpl; intros H.
  - repeat constructor.
  - inversion H as [|? ? Hl Hx]; subst.
    destruct (created_at x <? created_at r) eqn:E.
    + apply Z.ltb_lt in E. constructor; [exact H|].
      constructor; [lia|].
      eapply Forall_impl; [|exact Hx]. simpl. intros; lia.
    + apply Z.ltb_ge in E. constructor; [now apply IH|].
      eapply Permutation_Forall.
      * apply Permutation_sym, insert_desc_perm.
      * constructor; [exact E|exact Hx].
Qed.

Lemma order_desc_sorted (l : list ImageRow) :
  StronglySorted (fun a b => created_at b <= created_at a) (order_desc l).
Proof.
  induction l as [|x l IH]; simpl; [constructor|now apply insert_desc_sorted].
Qed.

(** A successful insert adds exactly the submitted row, completed with the
    column defaults, at the end of the table. *)
Lemma insert_accepted (w : World) (c : Conditions) (r : NewImage) (w' : World) :
  insert w c r = (w', false) ->
  exists url,
    new_image_url r = Some url /\
    images w' = images w ++ [mkRow (fresh_id c) (new_user_id r) url (new_prompt r) (now c)] /\
    auth_uid w = Some (new_user_id r).
Proof.
  unfold insert.
  destruct (fault c); [discriminate|].
  destruct (policy (auth_uid w) (new_user_id r)) eqn:P; simpl; [|discriminate].
  destruct (new_image_url r) as [url|]; [|discriminate].
  destruct (id_taken (images w) (fresh_id c)); [discriminate|].
  intros H. inversion H; subst; clear H. exists url. simpl. repeat split.
  unfold policy in P. destruct (auth_uid w) as [a|]; [|discriminate].
  apply String.eqb_eq in P. now subst.
Qed.

(** A refused insert leaves the table as it was. *)
Lemma insert_refused (w : World) (c : Conditions) (r : NewImage) (w' : World) :
  insert w c r = (w', true) -> w' = w.
Proof.
  unfold insert.
  destruct (fault c); [now inversion 1|].
  destruct (negb (policy (auth_uid w) (new_user_id r))); [now inversion 1|].
  destruct (new_image_url r); [|now inversion 1].
  destruct (id_taken (images w) (fresh_id c)); [now inversion 1|discriminate].
Qed.

Lemma filter_filter_implied {A : Type} (f g : A -> bool) (l : list A) :
  (forall x, f x = true -> g x = true) ->
  filter f (filter g l) = filter f l.
Proof.
  intros Himp. induction l as [|x l IH]; [reflexivity|].
  cbn [filter]. destruct (g x) eqn:G.
  - cbn [filter]. now rewrite IH.
  - rewrite IH. destruct (f x) eqn:F; [|reflexivity].
    apply Himp in F. congruence.
Qed.

(** What the owner query returns when the store answers. *)
Lemma select_by_owner_spec (w : World) (c : Conditions) (uid : string) (data : list ImageRow) :
  select_by_owner w c uid = Some data ->
  Forall (fun r => user_id r = uid) data /\
  StronglySorted (fun a b => created_at b <= created_at a) data /\
  Permutation data
              (filter (fun r => String.eqb (user_id r) uid)
                      (filter (fun r => policy (auth_uid w) (user_id r)) (images w))).
Proof.
  unfold select_by_owner. destruct (fault c); [discriminate|].
  intros H. inversion H; subst; clear H. repeat split.
  - eapply Permutation_Forall; [apply Permutation_sym, order_desc_perm|].
    apply Forall_forall. intros r Hr. apply filter_In in Hr.
    now apply String.eqb_eq.
  - apply order_desc_sorted.
  - apply order_desc_perm.
Qed.

End DbFacts.

(** ** Facts about generateImage and saveImage *)

Module HomeFacts.
Import JS Home Contract.
Local Open Scope list_scope.

Lemma try_retry_bound (rc : nat) (s : Settle) (ms : JsNumber) :
  try_body rc s = TryRetry ms -> (rc < MAX_RETRIES)%nat.
Proof.
  unfold try_body. destruct s as [r|e]; [|discriminate].
  destruct (negb (ok r)).
  - destruct (read_error_data r) as [e|j]; [discriminate|].
    destruct (cuda_check j) as [e|cuda]; [discriminate|].
    destruct (rc <? MAX_RETRIES)%nat eqn:E.
    + intros _. now apply Nat.ltb_lt.
    + rewrite !andb_false_r. discriminate.
  - destruct (blob_read r); discriminate.
Qed.

Lemma catch_retries_bound (rc : nat) (e : Thrown) :
  catch_retries rc e = true -> (rc < MAX_RETRIES)%nat.
Proof.
  destruct e as [name message|]; simpl; [|discriminate].
  intros H. apply andb_true_iff in H. now apply Nat.ltb_lt.
Qed.

Lemma catch_retries_transport (rc : nat) (e : Thrown) :
  catch_retries rc e = (transport_failure e && (rc <? MAX_RETRIES)%nat)%bool.
Proof. destruct e; reflexivity. Qed.

Lemma events_prepend (evs : list Event) (r : Run) :
  events (prepend evs r) = evs ++ events r.
Proof. reflexivity. Qed.

Lemma calls_app (a b : list Event) : calls (a ++ b) = calls a ++ calls b.
Proof. apply flat_map_app. Qed.

Lemma fetches_app (a b : list Event) : fetches (a ++ b) = fetches a ++ fetches b.
Proof. apply flat_map_app. Qed.

Lemma inserts_app (a b : list Event) : inserts (a ++ b) = inserts a ++ inserts b.
Proof. apply flat_map_app. Qed.

Lemma delays_app (a b : list Event) : delays (a ++ b) = delays a ++ delays b.
Proof. apply flat_map_app. Qed.

Lemma ui_after_app (ui : Ui) (a b : list Event) :
  ui_after ui (a ++ b) = ui_after (ui_after ui a) b.
Proof. apply fold_left_app. Qed.

Section Closure.

Variable user : option User.
Variable prompt : string.
Variable apiKey : option string.
Variable upstream : nat -> Attempt.
Variable store : Db.Conditions.

Notation generateImage_from := (generateImage_from user prompt apiKey upstream store).
Notation attempt := (attempt user prompt apiKey upstream store).
Notation started := (started prompt apiKey upstream).
Notation guard := (guard user prompt apiKey).
Notation onloadend := (onloadend user prompt store).
Notation saveImage := (saveImage user store).

(** The function is its three parts put together. *)
Lemma generateImage_from_unfold (fuel : nat) (w : Db.World) (rc : nat) (pending : list Event) :
  generateImage_from (S fuel) w rc pending =
  match guard with
  | Some (message, x) => Some (mkRun (ECall rc :: EToastError message :: pending) x w)
  | None =>
      match attempt w rc pending with
      | Again evs ms =>
          option_map (prepend (evs ++ [EDelay ms]))
                     (generateImage_from fuel w (S rc) [ESetLoading false])
      | Finish run => Some run
      end
  end.
Proof.
  unfold Home.guard, Home.attempt, Home.started. simpl.
  destruct user; [|reflexivity].
  destruct (negb (truthy_string (trim prompt))); [reflexivity|].
  destruct (hf apiKey); [|reflexivity].
  destruct (fetch_with_abort (upstream rc)) as [waited settled]. simpl.
  destruct (try_body rc settled); try reflexivity.
  destruct (catch_retries rc e); reflexivity.
Qed.

Lemma attempt_again_bound (w : Db.World) (rc : nat) (pending evs : list Event) (ms : JsNumber) :
  attempt w rc pending = Again evs ms -> (rc < MAX_RETRIES)%nat.
Proof.
  unfold Home.attempt.
  destruct (try_body rc _) eqn:T.
  - intros _. eapply try_retry_bound, T.
  - destruct (catch_retries rc e) eqn:C; [|discriminate].
    intros _. eapply catch_retries_bound, C.
  - discriminate.
Qed.

(** Enough fuel always gives a run: the recursion stops by itself. *)
Lemma generateImage_from_total (fuel : nat) :
  forall (w : Db.World) (rc : nat) (pending : list Event),
    (0 < fuel)%nat -> (MAX_RETRIES < fuel + rc)%nat ->
    exists run, generateImage_from fuel w rc pending = Some run.
Proof.
  induction fuel as [|fuel IH]; intros w rc pending Hpos Hfuel; [lia|].
  rewrite generateImage_from_unfold.
  destruct guard as [[m x]|]; [eauto|].
  destruct (attempt w rc pending) as [evs ms|run] eqn:A; [|eauto].
  apply attempt_again_bound in A. unfold MAX_RETRIES in *.
  destruct (IH w (S rc) [ESetLoading false]) as [inner Hinner]; [lia|lia|].
  rewrite Hinner. simpl. eauto.
Qed.

(** More fuel does not change a run. *)
Lemma generateImage_from_more_fuel (fuel : nat) :
  forall (w : Db.World) (rc : nat) (pending : list Event) (run : Run) (extra : nat),
    generateImage_from fuel w rc pending = Some run ->
    generateImage_from (extra + fuel) w rc pending = Some run.
Proof.
  induction fuel as [|fuel IH]; intros w rc pending run extra H; [discriminate|].
  replace (extra + S fuel)%nat with (S (extra + fuel)) by lia.
  rewrite generateImage_from_unfold in *.
  destruct guard as [[m x]|]; [exact H|].
  destruct (attempt w rc pending) as [evs ms|r]; [|exact H].
  destruct (generateImage_from fuel w (S rc) [ESetLoading false]) as [inner|] eqn:E;
    [|discriminate].
  now rewrite (IH _ _ _ _ extra E).
Qed.

(** Induction over the calls of a run: a guard refuses, the attempt
    finishes, or the attempt asks for another call. *)
Lemma generateImage_from_run_ind (w : Db.World) (P : nat -> list Event -> Run -> Prop) :
  (forall rc pending message x,
      guard = Some (message, x) ->
      P rc pending (mkRun (ECall rc :: EToastError message :: pending) x w)) ->
  (forall rc pending run,
      guard = None -> attempt w rc pending = Finish run -> P rc pending run) ->
  (forall rc pending evs ms inner,
      guard = None -> attempt w rc pending = Again evs ms ->
      P (S rc) [ESetLoading false] inner ->
      P rc pending (prepend (evs ++ [EDelay ms]) inner)) ->
  forall fuel rc pending run,
    generateImage_from fuel w rc pending = Some run -> P rc pending run.
Proof.
  intros Hguard Hfinish Hagain.
  induction fuel as [|fuel IH]; intros rc pending run H; [discriminate|].
  rewrite generateImage_from_unfold in H.
  destruct guard as [[m x]|] eqn:G.
  - inversion H; subst. now apply Hguard.
  - destruct (attempt w rc pending) as [evs ms|r] eqn:A.
    + destruct (generateImage_from fuel w (S rc) [ESetLoading false]) as [inner|] eqn:E;
        [|discriminate].
      inversion H; subst. eapply Hagain; eauto.
    + inversion H; subst. now apply Hfinish.
Qed.

Lemma calls_started (rc : nat) (pending : list Event) :
  calls (started rc pending) = rc :: calls pending.
Proof.
  unfold Home.started. cbn [calls flat_map app].
  fold (calls (pending ++ [EFetchWait (fst (fetch_with_abort (upstream rc)))])).
  rewrite calls_app. cbn. now rewrite app_nil_r.
Qed.

Lemma fetches_started (rc : nat) (pending : list Event) :
  fetches (started rc pending) = request prompt apiKey (upstream rc) :: fetches pending.
Proof.
  unfold Home.started. cbn [fetches flat_map app].
  fold (fetches (pending ++ [EFetchWait (fst (fetch_with_abort (upstream rc)))])).
  rewrite fetches_app. cbn. now rewrite app_nil_r.
Qed.

Lemma inserts_started (rc : nat) (pending : list Event) :
  inserts (started rc pending) = inserts pending.
Proof.
  unfold Home.started. cbn [inserts flat_map app].
  fold (inserts (pending ++ [EFetchWait (fst (fetch_with_abort (upstream rc)))])).
  rewrite inserts_app. cbn. now rewrite app_nil_r.
Qed.

(** What an attempt that asks for another call has done. *)
Lemma attempt_again (w : Db.World) (rc : nat) (pending evs : list Event) (ms : JsNumber) :
  attempt w rc pending = Again evs ms ->
  (rc < MAX_RETRIES)%nat /\
  (evs = started rc pending \/
   evs = started rc pending ++ [EConsoleError "Error generating image:"]).
Proof.
  intros A. split; [eapply attempt_again_bound, A|].
  unfold Home.attempt in A.
  destruct (try_body rc _); [inversion A; now left| |discriminate].
  destruct (catch_retries rc e); inversion A. now right.
Qed.

(** How an attempt finishes: an error is surfaced, or the reader is
    started and its handler runs. *)
Lemma attempt_finish (w : Db.World) (rc : nat) (pending : list Event) (run : Run) :
  attempt w rc pending = Finish run ->
  (exists e,
      run = mkRun (started rc pending
                     ++ [EConsoleError "Error generating image:"]
                     ++ [EToastError (errorMessage e); ESetLoading false])
                  (Surfaced e) w) \/
  (exists result,
      run = prepend (started rc pending ++ [ESetLoading false]) (onloadend w result)).
Proof.
  unfold Home.attempt. intros A.
  destruct (try_body rc _); [discriminate| |].
  - destruct (catch_retries rc e); [discriminate|]. inversion A. left. exists e.
    now rewrite <- app_assoc.
  - inversion A. right. eauto.
Qed.

(** The three ways saveImage ends. *)
Lemma saveImage_cases (w : Db.World) (imageUrl : option string) (p : string)
      (evs : list Event) (saved : SaveExit) (w' : Db.World) :
  saveImage w imageUrl p = (evs, saved, w') ->
  (user = None /\ evs = [EToastError msg_sign_in_save] /\ saved = SaveNoUser /\ w' = w) \/
  (exists u, user = Some u /\
     let row := Db.mkNew (uid u) imageUrl p in
     (saved = SaveFailed /\ w' = w /\ Db.insert w store row = (w, true) /\
      evs = [EInsert row; EConsoleError "Error saving image:"; EToastError msg_save_failed]) \/
     (saved = Saved /\ Db.insert w store row = (w', false) /\
      evs = [EInsert row; EToastSuccess msg_saved])).
Proof.
  unfold Home.saveImage. destruct user as [u|].
  - destruct (Db.insert w store (Db.mkNew (uid u) imageUrl p)) as [w1 err] eqn:I.
    destruct err; intros H; inversion H; subst; right; exists u; split; try reflexivity.
    + left. pose proof (DbFacts.insert_refused _ _ _ _ I). subst. auto.
    + right. auto.
  - intros H; inversion H; subst. left. auto.
Qed.

(** The load-end handler: at most an uncaught error before, then the image
    is displayed, saved, and the success notification shown. *)
Lemma onloadend_shape (w : Db.World) (result : option string) :
  exists evs saved w',
    saveImage w result prompt = (evs, saved, w') /\
    onloadend w result =
    mkRun (match result with
           | None => [EUncaught (Error "Failed to process the generated image")]
           | Some _ => []
           end ++ [ESetGeneratedImage result] ++ evs ++ [EToastSuccess msg_generated])
          (Displayed result saved) w'.
Proof.
  unfold Home.onloadend.
  destruct (saveImage w result prompt) as [[evs saved] w'].
  exists evs, saved, w'. split; reflexivity.
Qed.

Lemma onloadend_no_calls (w : Db.World) (result : option string) :
  calls (events (onloadend w result)) = [] /\ fetches (events (onloadend w result)) = [].
Proof.
  destruct (onloadend_shape w result) as (evs & saved & w' & Hs & ->).
  apply saveImage_cases in Hs.
  destruct Hs as [(_ & -> & _)|(u & _ & [(_ & _ & _ & ->)|(_ & _ & ->)])];
    destruct result; split; reflexivity.
Qed.

(** The calls of a run are numbered consecutively from the first one and
    never beyond MAX_RETRIES; each call fetches at most once. *)
Lemma run_calls (w : Db.World) (fuel rc : nat) (pending : list Event) (run : Run) :
  generateImage_from fuel w rc pending = Some run ->
  calls pending = [] -> fetches pending = [] ->
  calls (events run) = seq rc (List.length (calls (events run))) /\
  ((rc <= MAX_RETRIES)%nat -> (List.length (calls (events run)) + rc <= S MAX_RETRIES)%nat) /\
  (List.length (fetches (events run)) <= List.length (calls (events run)))%nat.
Proof.
  revert fuel rc pending run.
  apply (generateImage_from_run_ind w
           (fun rc pending run =>
              calls pending = [] -> fetches pending = [] ->
              calls (events run) = seq rc (List.length (calls (events run))) /\
              ((rc <= MAX_RETRIES)%nat ->
               (List.length (calls (events run)) + rc <= S MAX_RETRIES)%nat) /\
              (List.length (fetches (events run)) <= List.length (calls (events run)))%nat)).
  - intros rc pending m x _ Hc Hf. cbn [events calls fetches flat_map app].
    fold (calls pending). fold (fetches pending). rewrite Hc, Hf. cbn.
    repeat split; lia.
  - intros rc pending run _ A Hc Hf.
    apply attempt_finish in A. destruct A as [(e & ->)|(result & ->)].
    + cbn [events]. rewrite calls_app, fetches_app, calls_started, fetches_started, Hc, Hf.
      cbn. repeat split; lia.
    + rewrite events_prepend, !calls_app, !fetches_app, calls_started, fetches_started, Hc, Hf.
      destruct (onloadend_no_calls w result) as [-> ->]. cbn. repeat split; lia.
  - intros rc pending evs ms inner _ A IH Hc Hf.
    destruct (IH eq_refl eq_refl) as (IHc & IHb & IHf).
    apply attempt_again in A. destruct A as [Hrc Hevs].
    assert (Hce : calls (evs ++ [EDelay ms]) = [rc] /\
                  fetches (evs ++ [EDelay ms]) = [request prompt apiKey (upstream rc)]).
    { destruct Hevs as [->| ->];
        rewrite ?calls_app, ?fetches_app, calls_started, fetches_started, Hc, Hf;
        split; reflexivity. }
    destruct Hce as [Hce Hfe].
    rewrite events_prepend, calls_app, fetches_app, Hce, Hfe.
    cbn [app List.length]. unfold MAX_RETRIES in *. repeat split.
    + rewrite IHc at 1. reflexivity.
    + intros _. specialize (IHb ltac:(lia)). lia.
    + lia.
Qed.

(** The guards let through a call with a session, a non-blank prompt and
    a configured key. *)
Lemma guard_ready (u : User) (k : string) :
  user = Some u -> blank prompt = false -> apiKey = Some k -> truthy_string k = true ->
  guard = None.
Proof.
  intros -> Hb -> Hk. unfold Home.guard, hf, init_hf. rewrite Hk.
  destruct (truthy_string (trim prompt)) eqn:T; [reflexivity|].
  apply JSFacts.trim_falsy_iff_blank in T. congruence.
Qed.


Lemma finish_step (fuel : nat) (w : Db.World) (rc : nat) (pending : list Event) (run : Run) :
  guard = None -> attempt w rc pending = Finish run ->
  generateImage_from (S fuel) w rc pending = Some run.
Proof. intros G A. now rewrite generateImage_from_unfold, G, A. Qed.

(** A fetch that settles before the timer is seen as it settled. *)
Lemma fetch_in_time (a : Attempt) :
  latency a < FETCH_TIMEOUT -> fetch_with_abort a = (latency a, settle a).
Proof. intros H. unfold fetch_with_abort. apply Z.ltb_lt in H. now rewrite H. Qed.

(** A fetch still pending when the timer fires is aborted. *)
Lemma fetch_timed_out (a : Attempt) :
  FETCH_TIMEOUT <= latency a -> fetch_with_abort a = (FETCH_TIMEOUT, Rejected AbortError).
Proof. intros H. unfold fetch_with_abort. apply Z.ltb_ge in H. now rewrite H. Qed.




(** A transport failure is retried after the fixed delay while retries
    remain, and surfaced otherwise. *)
Lemma attempt_transport_failure (w : Db.World) (rc : nat) (pending : list Event) (e : Thrown) :
  snd (fetch_with_abort (upstream rc)) = Rejected e ->
  transport_failure e = true ->
  attempt w rc pending =
  if (rc <? MAX_RETRIES)%nat then
    Again (started rc pending ++ [EConsoleError "Error generating image:"]) (Some RETRY_DELAY)
  else
    Finish (mkRun ((started rc pending ++ [EConsoleError "Error generating image:"])
                     ++ [EToastError (errorMessage e); ESetLoading false])
                  (Surfaced e) w).
Proof.
  intros Hs Ht. unfold Home.attempt. rewrite Hs. cbn [try_body].
  rewrite catch_retries_transport, Ht. cbn [andb].
  now destruct (rc <? MAX_RETRIES)%nat.
Qed.

Lemma guard_exit (message : string) (x : Exit) :
  guard = Some (message, x) -> x = NoUser \/ x = NoPrompt \/ x = NoClient.
Proof.
  unfold Home.guard. destruct user; [|inversion 1; auto].
  destruct (negb (truthy_string (trim prompt))); [inversion 1; auto|].
  destruct (hf apiKey); [discriminate|inversion 1; auto].
Qed.

Lemma guard_none_user : guard = None -> exists u, user = Some u.
Proof. unfold Home.guard. destruct user as [u|]; [eauto|discriminate]. Qed.

(** Every request of a run submits the decorated prompt. *)
Lemma run_requests (w : Db.World) (fuel rc : nat) (pending : list Event) (run : Run) :
  generateImage_from fuel w rc pending = Some run ->
  fetches pending = [] ->
  Forall (fun req => inputs req = enhancedPrompt prompt) (fetches (events run)).
Proof.
  revert fuel rc pending run.
  apply (generateImage_from_run_ind w
           (fun rc pending run =>
              fetches pending = [] ->
              Forall (fun req => inputs req = enhancedPrompt prompt) (fetches (events run)))).
  - intros rc pending m x _ Hf. cbn [events fetches flat_map app].
    fold (fetches pending). rewrite Hf. constructor.
  - intros rc pending run _ A Hf.
    apply attempt_finish in A. destruct A as [(e & ->)|(result & ->)].
    + cbn [events]. rewrite fetches_app, fetches_started, Hf. cbn.
      repeat constructor.
    + rewrite events_prepend, !fetches_app, fetches_started, Hf.
      destruct (onloadend_no_calls w result) as [_ ->]. cbn. repeat constructor.
  - intros rc pending evs ms inner _ A IH Hf.
    apply attempt_again in A. destruct A as [_ Hevs].
    rewrite events_prepend, fetches_app. apply Forall_app. split; [|now apply IH].
    destruct Hevs as [->| ->]; rewrite ?fetches_app, fetches_started, Hf; cbn;
      repeat constructor.
Qed.

(** A run inserts nothing before the load-end handler: a run that does not
    reach it leaves the store alone, and one that does ends with the events
    of the handler. *)
Lemma run_displayed (w : Db.World) (fuel rc : nat) (pending : list Event) (run : Run) :
  generateImage_from fuel w rc pending = Some run ->
  inserts pending = [] ->
  match exit run with
  | Displayed image saved =>
      exists pre,
        events run = pre ++ events (onloadend w image) /\
        inserts pre = [] /\
        exit (onloadend w image) = Displayed image saved /\
        world (onloadend w image) = world run /\
        user <> None
  | _ => inserts (events run) = [] /\ world run = w
  end.
Proof.
  revert fuel rc pending run.
  apply (generateImage_from_run_ind w
           (fun rc pending run =>
              inserts pending = [] ->
              match exit run with
              | Displayed image saved =>
                  exists pre,
                    events run = pre ++ events (onloadend w image) /\
                    inserts pre = [] /\
                    exit (onloadend w image) = Displayed image saved /\
                    world (onloadend w image) = world run /\
                    user <> None
              | _ => inserts (events run) = [] /\ world run = w
              end)).
  - intros rc pending m x G Hi.
    assert (Hins : inserts (ECall rc :: EToastError m :: pending) = []) by exact Hi.
    destruct (guard_exit _ _ G) as [->|[->| ->]]; cbn [exit events world]; auto.
  - intros rc pending run G A Hi.
    destruct (guard_none_user G) as [u Hu].
    apply attempt_finish in A. destruct A as [(e & ->)|(result & ->)].
    + cbn [exit events world]. rewrite inserts_app, inserts_started, Hi. auto.
    + destruct (onloadend_shape w result) as (evs & saved & w' & _ & Hshape).
      assert (Hexit : exit (onloadend w result) = Displayed result saved)
        by now rewrite Hshape.
      cbn [prepend exit events world]. rewrite Hexit.
      exists (started rc pending ++ [ESetLoading false]). repeat split.
      * rewrite inserts_app, inserts_started, Hi. reflexivity.
      * exact Hexit.
      * rewrite Hu. discriminate.
  - intros rc pending evs ms inner _ A IH Hi.
    apply attempt_again in A. destruct A as [_ Hevs].
    assert (Hpre : inserts (evs ++ [EDelay ms]) = []).
    { destruct Hevs as [->| ->]; rewrite ?inserts_app, inserts_started, Hi; reflexivity. }
    specialize (IH eq_refl). cbn [prepend exit events world].
    destruct (exit inner).
    1-4: destruct IH as [IHi IHw]; rewrite inserts_app, Hpre, IHi; auto.
    destruct IH as (pre & He & Hp & Hx & Hw & Hu).
    exists ((evs ++ [EDelay ms]) ++ pre). repeat split; auto.
    + now rewrite He, app_assoc.
    + now rewrite inserts_app, Hpre, Hp.
Qed.

(** A run that displays a result has fetched. *)
Lemma run_displayed_fetched (w : Db.World) (fuel rc : nat) (pending : list Event) (run : Run) :
  generateImage_from fuel w rc pending = Some run ->
  match exit run with
  | Displayed _ _ => fetches (events run) <> []
  | _ => True
  end.
Proof.
  revert fuel rc pending run.
  apply (generateImage_from_run_ind w
           (fun rc pending run =>
              match exit run with
              | Displayed _ _ => fetches (events run) <> []
              | _ => True
              end)).
  - intros rc pending m x G.
    destruct (guard_exit _ _ G) as [->|[->| ->]]; exact I.
  - intros rc pending run _ A.
    apply attempt_finish in A. destruct A as [(e & ->)|(result & ->)]; [exact I|].
    destruct (onloadend_shape w result) as (evs & saved & w' & _ & Hshape).
    cbn [prepend exit events]. rewrite Hshape. cbn [exit].
    rewrite !fetches_app, fetches_started. discriminate.
  - intros rc pending evs ms inner _ A IH.
    apply attempt_again in A. destruct A as [_ Hevs].
    cbn [prepend exit events]. destruct (exit inner); try exact I.
    rewrite fetches_app. destruct Hevs as [->| ->];
      rewrite ?fetches_app, fetches_started; discriminate.
Qed.

End Closure.

End HomeFacts.

(** ** The claims of the specification *)

Module Claims.
Import JS Home Contract.
Local Open Scope list_scope.

(** C3. Whatever the upstream answers at each attempt (successes, 429s,
    resource-exhaustion bodies, transport failures, other errors), an
    invocation of generateImage ends: it yields a run, the same one however
    much more fuel the model is given; its calls carry the retry counts
    0, 1, 2, ... in order, none above 3, so at most 4 calls and at most 4
    fetches are made; and the run ends in a failure of the taxonomy or in
    the display of the result. *)
Theorem C3_generate_terminates_within_four_attempts
        (user : option User) (prompt : string) (apiKey : option string)
        (upstream : nat -> Attempt) (store : Db.Conditions) (w : Db.World) :
  exists run,
    generateImage user prompt apiKey upstream store w = Some run /\
    (forall extra,
        generateImage_from user prompt apiKey upstream store
                           (extra + S MAX_RETRIES) w 0 [] = Some run) /\
    calls (events run) = seq 0 (List.length (calls (events run))) /\
    (List.length (calls (events run)) <= 4)%nat /\
    Forall (fun rc => (rc <= MAX_RETRIES)%nat) (calls (events run)) /\
    (List.length (fetches (events run)) <= 4)%nat /\
    ((exists f, failure_of (exit run) = Some f) \/
     (exists image saved, exit run = Displayed image saved)).
Proof.
  destruct (HomeFacts.generateImage_from_total user prompt apiKey upstream store
              (S MAX_RETRIES) w 0 []) as [run Hrun]; [lia|lia|].
  exists run. split; [exact Hrun|].
  destruct (HomeFacts.run_calls _ _ _ _ _ _ _ _ _ _ Hrun eq_refl eq_refl) as (Hc & Hb & Hf).
  specialize (Hb ltac:(unfold MAX_RETRIES; lia)). unfold MAX_RETRIES in Hb.
  repeat split.
  - intros extra. now apply HomeFacts.generateImage_from_more_fuel.
  - exact Hc.
  - lia.
  - rewrite Hc. apply Forall_forall. intros n Hn. apply in_seq in Hn.
    unfold MAX_RETRIES. lia.
  - lia.
  - destruct (exit run) eqn:E; simpl; eauto.
Qed.

(** C4. For every prompt that is empty or made of white space only,
    generateImage issues no network call, inserts nothing and sets no
    state, whatever the session; with the session present (the
    precondition of the contract) it ends at the prompt guard, that is with
    EmptyPrompt, after the single notification 'Please enter a prompt'. *)
Theorem C4_blank_prompt_refused_without_network
        (user : option User) (prompt : string) (apiKey : option string)
        (upstream : nat -> Attempt) (store : Db.Conditions) (w : Db.World) :
  blank prompt = true ->
  exists run,
    generateImage user prompt apiKey upstream store w = Some run /\
    fetches (events run) = [] /\
    inserts (events run) = [] /\
    state_changes (events run) = [] /\
    world run = w /\
    (forall u, user = Some u ->
               events run = [ECall 0; EToastError msg_enter_prompt] /\
               failure_of (exit run) = Some EmptyPrompt).
Proof.
  intros Hblank. apply JSFacts.trim_falsy_iff_blank in Hblank.
  unfold generateImage. cbn [generateImage_from MAX_RETRIES].
  destruct user as [u|].
  - rewrite Hblank. cbn [negb]. eexists; split; [reflexivity|].
    cbn. repeat split; intros; reflexivity.
  - eexists; split; [reflexivity|]. cbn. repeat split; discriminate.
Qed.

(** The guard is reached with the blank prompt of one space and a tab. *)
Lemma C4_witness :
  exists run,
    generateImage (Some Samples.alice) (String " " (String (ascii_of_N 9) EmptyString))
                  Samples.key (fun _ => Samples.answers Samples.success)
                  Samples.conditions0 Samples.world0 = Some run /\
    fetches (events run) = [] /\
    inserts (events run) = [] /\
    state_changes (events run) = [] /\
    world run = Samples.world0 /\
    events run = [ECall 0; EToastError msg_enter_prompt] /\
    failure_of (exit run) = Some EmptyPrompt.
Proof.
  destruct (C4_blank_prompt_refused_without_network
              (Some Samples.alice) (String " " (String (ascii_of_N 9) EmptyString))
              Samples.key (fun _ => Samples.answers Samples.success)
              Samples.conditions0 Samples.world0 eq_refl)
    as (run & Hrun & Hf & Hi & Hs & Hw & Huser).
  exists run. repeat split; try assumption; apply (Huser Samples.alice eq_refl).
Defined.

(** C5. With no identity in the session, generateImage and saveImage both
    end at their session guard (NoSession): the only thing either does is
    show its sign-in notification; no network call, no insert, no state
    setter, and the store is as before. *)
Theorem C5_no_session_no_side_effects
        (prompt : string) (apiKey : option string) (upstream : nat -> Attempt)
        (store : Db.Conditions) (w : Db.World)
        (imageUrl : option string) (savedPrompt : string) :
  exists run evs saved w',
    generateImage None prompt apiKey upstream store w = Some run /\
    saveImage None store w imageUrl savedPrompt = (evs, saved, w') /\
    failure_of (exit run) = Some NoSession /\
    save_failure_of saved = Some NoSession /\
    events run = [ECall 0; EToastError msg_sign_in_generate] /\
    evs = [EToastError msg_sign_in_save] /\
    fetches (events run ++ evs) = [] /\
    inserts (events run ++ evs) = [] /\
    state_changes (events run ++ evs) = [] /\
    world run = w /\ w' = w.
Proof.
  do 4 eexists. split; [reflexivity|]. split; [reflexivity|].
  cbn. repeat split.
Qed.

(** C10. When the inference API key is missing (undefined or empty), no
    call of generateImage ever reaches the network or sets any state: it
    ends at one of the guards, never as an UpstreamError or a Timeout; with
    the session present and a non-blank prompt it ends at the client guard
    (ConfigurationError) after the single notification 'API client is not
    properly initialized', a text no upstream failure message
    'API request failed: ...' can equal. *)
Theorem C10_missing_key_prevents_generation
        (user : option User) (prompt : string) (apiKey : option string)
        (upstream : nat -> Attempt) (store : Db.Conditions) (w : Db.World) :
  key_absent apiKey ->
  exists run,
    generateImage user prompt apiKey upstream store w = Some run /\
    fetches (events run) = [] /\
    inserts (events run) = [] /\
    state_changes (events run) = [] /\
    world run = w /\
    (exists f, failure_of (exit run) = Some f /\ f <> UpstreamError /\ f <> Timeout) /\
    (forall u, user = Some u -> blank prompt = false ->
               events run = [ECall 0; EToastError msg_no_client] /\
               failure_of (exit run) = Some ConfigurationError) /\
    (forall errorData, msg_no_client <> ("API request failed: " ++ stringify errorData)%string).
Proof.
  intros Hkey.
  assert (Hhf : hf apiKey = None).
  { destruct Hkey as [-> | ->]; reflexivity. }
  assert (Hmsg : forall errorData,
             msg_no_client <> ("API request failed: " ++ stringify errorData)%string).
  { intros errorData H. cbn in H. discriminate H. }
  unfold generateImage. cbn [generateImage_from MAX_RETRIES].
  destruct user as [u|].
  - destruct (negb (truthy_string (trim prompt))) eqn:T.
    + eexists; split; [reflexivity|]. cbn.
      do 4 (split; [reflexivity|]).
      split; [exists EmptyPrompt; repeat split; discriminate|].
      split; [|exact Hmsg].
      intros u0 _ Hb. apply negb_true_iff in T.
      apply JSFacts.trim_falsy_iff_blank in T. congruence.
    + rewrite Hhf. eexists; split; [reflexivity|]. cbn.
      do 4 (split; [reflexivity|]).
      split; [exists ConfigurationError; repeat split; discriminate|].
      split; [|exact Hmsg].
      intros u0 _ _. split; reflexivity.
  - eexists; split; [reflexivity|]. cbn.
    do 4 (split; [reflexivity|]).
    split; [exists NoSession; repeat split; discriminate|].
    split; [|exact Hmsg].
    intros u0 Hu. discriminate Hu.
Qed.

(** A signed-in user with a prompt, and no key configured. *)
Lemma C10_witness :
  exists run,
    generateImage (Some Samples.alice) "a cat" None (fun _ => Samples.answers Samples.success)
                  Samples.conditions0 Samples.world0 = Some run /\
    fetches (events run) = [] /\
    inserts (events run) = [] /\
    state_changes (events run) = [] /\
    world run = Samples.world0 /\
    events run = [ECall 0; EToastError msg_no_client] /\
    failure_of (exit run) = Some ConfigurationError.
Proof.
  destruct (C10_missing_key_prevents_generation
              (Some Samples.alice) "a cat" None (fun _ => Samples.answers Samples.success)
              Samples.conditions0 Samples.world0 (or_introl eq_refl))
    as (run & Hrun & Hf & Hi & Hs & Hw & _ & Hready & _).
  exists run. repeat split; try assumption; apply (Hready Samples.alice eq_refl eq_refl).
Defined.



(** C2, where the code departs from it. The timeout half holds: the
    fetch of an attempt is awaited for at most 30000 ms, a fetch still
    pending then is aborted, the abort is retried after 2000 ms while the
    retry count is below 3 and surfaces as a Timeout afterwards; against an
    upstream that never answers in time the run is four calls, the last
    three each preceded by a 2000 ms delay. The other half does not: a
    rejected fetch is retried only when the catch clause's test holds
    (name 'AbortError', or a message containing 'Failed to fetch') and is
    surfaced at once otherwise. A network failure worded
    'NetworkError when attempting to fetch resource.' ends the run after
    one call, without any delay. *)
Theorem C2_timeout_is_retried_but_not_every_network_failure
        (u : User) (prompt k : string) (upstream : nat -> Attempt)
        (store : Db.Conditions) (w : Db.World) :
  blank prompt = false -> truthy_string k = true ->
  let gen := generateImage_from (Some u) prompt (Some k) upstream store in
  let req := fun n => EFetch (request prompt (Some k) (upstream n)) in
  let network_error := TypeError "NetworkError when attempting to fetch resource." in
  (FETCH_TIMEOUT = 30000 /\
   (forall rc, fst (fetch_with_abort (upstream rc)) <= FETCH_TIMEOUT) /\
   (forall rc, FETCH_TIMEOUT <= latency (upstream rc) ->
               fetch_with_abort (upstream rc) = (FETCH_TIMEOUT, Rejected AbortError)) /\
   failure_of (Surfaced AbortError) = Some Timeout) /\
  (forall fuel rc pending e,
      snd (fetch_with_abort (upstream rc)) = Rejected e ->
      gen (S fuel) w rc pending =
      (if (match e with
           | ErrorObject name message =>
               String.eqb name "AbortError" || includes message "Failed to fetch"
           | OtherValue => false
           end && (rc <? MAX_RETRIES)%nat)%bool
       then
         option_map
           (prepend (started prompt (Some k) upstream rc pending
                       ++ [EConsoleError "Error generating image:"; EDelay (Some 2000)]))
           (gen fuel w (S rc) [ESetLoading false])
       else
         Some (mkRun (started prompt (Some k) upstream rc pending
                        ++ [EConsoleError "Error generating image:";
                            EToastError (errorMessage e); ESetLoading false])
                     (Surfaced e) w))) /\
  ((forall n, FETCH_TIMEOUT <= latency (upstream n)) ->
   generateImage (Some u) prompt (Some k) upstream store w =
   Some (mkRun
           [ECall 0; ESetLoading true; req 0%nat; EFetchWait 30000;
            EConsoleError "Error generating image:"; EDelay (Some 2000);
            ECall 1; ESetLoading true; req 1%nat; ESetLoading false; EFetchWait 30000;
            EConsoleError "Error generating image:"; EDelay (Some 2000);
            ECall 2; ESetLoading true; req 2%nat; ESetLoading false; EFetchWait 30000;
            EConsoleError "Error generating image:"; EDelay (Some 2000);
            ECall 3; ESetLoading true; req 3%nat; ESetLoading false; EFetchWait 30000;
            EConsoleError "Error generating image:";
            EToastError "signal is aborted without reason"; ESetLoading false]
           (Surfaced AbortError) w)) /\
  (latency (upstream 0%nat) < FETCH_TIMEOUT ->
   settle (upstream 0%nat) = Rejected network_error ->
   generateImage (Some u) prompt (Some k) upstream store w =
   Some (mkRun
           [ECall 0; ESetLoading true; req 0%nat; EFetchWait (latency (upstream 0%nat));
            EConsoleError "Error generating image:";
            EToastError "NetworkError when attempting to fetch resource.";
            ESetLoading false]
           (Surfaced network_error) w) /\
   failure_of (Surfaced network_error) = Some UpstreamError).
Proof.
  intros Hb Hk gen req network_error. subst gen req network_error.
  pose proof (HomeFacts.guard_ready (Some u) prompt (Some k) u k eq_refl Hb eq_refl Hk) as G.
  assert (Hstep : forall fuel rc pending e,
             snd (fetch_with_abort (upstream rc)) = Rejected e ->
             generateImage_from (Some u) prompt (Some k) upstream store (S fuel) w rc pending =
             (if (transport_failure e && (rc <? MAX_RETRIES)%nat)%bool
              then
                option_map
                  (prepend (started prompt (Some k) upstream rc pending
                              ++ [EConsoleError "Error generating image:"; EDelay (Some 2000)]))
                  (generateImage_from (Some u) prompt (Some k) upstream store fuel w (S rc)
                                      [ESetLoading false])
              else
                Some (mkRun (started prompt (Some k) upstream rc pending
                               ++ [EConsoleError "Error generating image:";
                                   EToastError (errorMessage e); ESetLoading false])
                            (Surfaced e) w))).
  { intros fuel rc pending e Hs.
    rewrite HomeFacts.generateImage_from_unfold, G. unfold attempt. rewrite Hs.
    cbn [try_body]. rewrite HomeFacts.catch_retries_transport.
    destruct (transport_failure e && (rc <? MAX_RETRIES)%nat)%bool;
      now rewrite <- app_assoc. }
  split; [|split; [|split]].
  - split; [reflexivity|]. split; [|split; [|reflexivity]].
    + intros rc. unfold fetch_with_abort.
      destruct (latency (upstream rc) <? FETCH_TIMEOUT) eqn:E; cbn [fst]; [|lia].
      apply Z.ltb_lt in E. lia.
    + intros rc. apply HomeFacts.fetch_timed_out.
  - exact Hstep.
  - intros Hang.
    assert (Ha : forall rc pending,
               attempt (Some u) prompt (Some k) upstream store w rc pending =
               if (rc <? MAX_RETRIES)%nat then
                 Again (ECall rc :: ESetLoading true :: EFetch (request prompt (Some k) (upstream rc))
                          :: pending ++ [EFetchWait 30000; EConsoleError "Error generating image:"])
                       (Some 2000)
               else
                 Finish (mkRun (ECall rc :: ESetLoading true
                                  :: EFetch (request prompt (Some k) (upstream rc))
                                  :: pending ++ [EFetchWait 30000;
                                                 EConsoleError "Error generating image:";
                                                 EToastError "signal is aborted without reason";
                                                 ESetLoading false])
                               (Surfaced AbortError) w)).
    { intros rc pending.
      rewrite (HomeFacts.attempt_transport_failure _ _ _ _ _ w rc pending AbortError);
        [|now rewrite (HomeFacts.fetch_timed_out _ (Hang rc))|reflexivity].
      unfold started. rewrite (HomeFacts.fetch_timed_out _ (Hang rc)).
      cbn [fst errorMessage AbortError app].
      destruct (rc <? MAX_RETRIES)%nat; rewrite <- ?app_assoc; reflexivity. }
    unfold generateImage. change MAX_RETRIES with 3%nat.
    do 4 (rewrite HomeFacts.generateImage_from_unfold, G, Ha;
          cbn [Nat.ltb Nat.leb MAX_RETRIES]).
    reflexivity.
  - intros Hlat Hsettle. split; [|reflexivity].
    unfold generateImage.
    rewrite (Hstep MAX_RETRIES 0%nat [] _
               (eq_trans (f_equal snd (HomeFacts.fetch_in_time _ Hlat)) Hsettle)).
    cbn [transport_failure TypeError andb]. unfold started.
    rewrite (HomeFacts.fetch_in_time _ Hlat). reflexivity.
Qed.

(** The two upstreams: one whose fetch fails with the network error as
    Firefox words it, one that never answers in time. *)
Lemma C2_witness :
  let network_error := TypeError "NetworkError when attempting to fetch resource." in
  let offline := fun _ : nat => mkAttempt 5 (Rejected network_error) 7 in
  let silent := fun _ : nat => Samples.hangs in
  let req := EFetch (request "a cat" (Some "hf_key") Samples.hangs) in
  (generateImage (Some Samples.alice) "a cat" (Some "hf_key") offline Samples.conditions0
                 Samples.world0 =
   Some (mkRun
           [ECall 0; ESetLoading true;
            EFetch (request "a cat" (Some "hf_key") (offline 0%nat)); EFetchWait 5;
            EConsoleError "Error generating image:";
            EToastError "NetworkError when attempting to fetch resource.";
            ESetLoading false]
           (Surfaced network_error) Samples.world0) /\
   failure_of (Surfaced network_error) = Some UpstreamError) /\
  fetch_with_abort Samples.hangs = (FETCH_TIMEOUT, Rejected AbortError) /\
  generateImage (Some Samples.alice) "a cat" (Some "hf_key") silent Samples.conditions0
                Samples.world0 =
  Some (mkRun
          [ECall 0; ESetLoading true; req; EFetchWait 30000;
           EConsoleError "Error generating image:"; EDelay (Some 2000);
           ECall 1; ESetLoading true; req; ESetLoading false; EFetchWait 30000;
           EConsoleError "Error generating image:"; EDelay (Some 2000);
           ECall 2; ESetLoading true; req; ESetLoading false; EFetchWait 30000;
           EConsoleError "Error generating image:"; EDelay (Some 2000);
           ECall 3; ESetLoading true; req; ESetLoading false; EFetchWait 30000;
           EConsoleError "Error generating image:";
           EToastError "signal is aborted without reason"; ESetLoading false]
          (Surfaced AbortError) Samples.world0).
Proof.
  intros network_error offline silent req.
  destruct (C2_timeout_is_retried_but_not_every_network_failure
              Samples.alice "a cat" "hf_key" offline Samples.conditions0 Samples.world0
              eq_refl eq_refl) as (_ & _ & _ & Hoffline).
  destruct (C2_timeout_is_retried_but_not_every_network_failure
              Samples.alice "a cat" "hf_key" silent Samples.conditions0 Samples.world0
              eq_refl eq_refl) as ((_ & _ & Habort & _) & _ & Hsilent & _).
  split; [apply Hoffline; reflexivity|].
  split; [apply (Habort 0%nat); vm_compute; discriminate|].
  apply Hsilent. intros n. vm_compute. discriminate.
Defined.




(** A hint beyond 2^53 is rounded twice, by [parseInt] and by the product:
    'Retry-After: 9007199254740993' asks for 9007199254740992000 ms. *)
Example retry_after_beyond_the_safe_integers :
  retry_after_ms (Samples.limited (Some "9007199254740993")) = Some 9007199254740992000.
Proof. reflexivity. Qed.

(** The slip beside C1: a 429 whose body is not JSON is not retried at all.
    [response.json()] has consumed the body, the fallback [response.text()]
    rejects, and the catch clause surfaces that TypeError. *)
Example rate_limited_plain_text_not_retried :
  generateImage (Some Samples.alice) "a cat" Samples.key
                (fun _ => Samples.answers Samples.limited_plain) Samples.conditions0
                Samples.world0 =
  Some (mkRun
          [ECall 0; ESetLoading true;
           EFetch (request "a cat" Samples.key (Samples.answers Samples.limited_plain));
           EFetchWait 1200; EConsoleError "Error generating image:";
           EToastError "Failed to execute 'text' on 'Response': body stream already read";
           ESetLoading false]
          (Surfaced body_used) Samples.world0).
Proof. reflexivity. Qed.

(** With 'Retry-After: 1' twice and then a success, the run waits 1000 ms
    twice and succeeds at its third call. *)
Example rate_limited_twice_then_success :
  let upstream := fun n : nat =>
                    match n with
                    | 0%nat | 1%nat => Samples.answers (Samples.limited (Some "1"))
                    | _ => Samples.answers Samples.success
                    end in
  exists run,
    generateImage (Some Samples.alice) "a cat" Samples.key upstream Samples.conditions0
                  Samples.world0 = Some run /\
    calls (events run) = [0; 1; 2]%nat /\
    delays (events run) = [Some 1000; Some 1000] /\
    exit run = Displayed (Some Samples.picture) Saved.
Proof.
  intros upstream. eexists. split; [vm_compute; reflexivity|].
  repeat split; reflexivity.
Qed.

(** C7. On a run of generateImage with a session that ends with the image
    displayed: every request sent upstream (there is at least one) carries
    the prompt followed by the fixed style suffix; exactly one insert is
    submitted, with the session's user id and the prompt as the user typed
    it; and the table gains exactly that one record when the store accepts
    the insert (no fault, the store's own [auth.uid()] is the user, the
    fresh id is free), and nothing otherwise. *)
Theorem C7_one_record_with_original_prompt
        (u : User) (prompt : string) (apiKey : option string) (upstream : nat -> Attempt)
        (store : Db.Conditions) (w : Db.World) (run : Run) (image : string) (saved : SaveExit) :
  generateImage (Some u) prompt apiKey upstream store w = Some run ->
  exit run = Displayed (Some image) saved ->
  let accepted :=
    (negb (Db.fault store) && Db.policy (Db.auth_uid w) (uid u)
     && negb (Db.id_taken (Db.images w) (Db.fresh_id store)))%bool in
  fetches (events run) <> [] /\
  Forall (fun req => inputs req = (prompt ++ style_suffix)%string) (fetches (events run)) /\
  inserts (events run) = [Db.mkNew (uid u) (Some image) prompt] /\
  saved = (if accepted then Saved else SaveFailed) /\
  Db.images (world run) =
  (if accepted then
     Db.images w ++ [Db.mkRow (Db.fresh_id store) (uid u) image prompt (Db.now store)]
   else Db.images w).
Proof.
  intros Hrun Hexit accepted. subst accepted.
  pose proof (HomeFacts.run_displayed_fetched _ _ _ _ _ _ _ _ _ _ Hrun) as Hfetched.
  pose proof (HomeFacts.run_requests _ _ _ _ _ _ _ _ _ _ Hrun eq_refl) as Hreq.
  pose proof (HomeFacts.run_displayed _ _ _ _ _ _ _ _ _ _ Hrun eq_refl) as Hdisp.
  rewrite Hexit in Hfetched, Hdisp.
  destruct Hdisp as (pre & Hev & Hpre & Hx & Hw & _).
  split; [exact Hfetched|]. split; [exact Hreq|].
  rewrite Hev, HomeFacts.inserts_app, Hpre, <- Hw. clear Hev Hw Hrun Hreq Hfetched.
  revert Hx. unfold onloadend, saveImage, Db.insert. cbn [Db.new_image_url Db.new_user_id].
  destruct (Db.fault store); cbn [negb andb];
    [intros Hx; inversion Hx; repeat split|].
  destruct (Db.policy (Db.auth_uid w) (uid u)); cbn [negb andb];
    [|intros Hx; inversion Hx; repeat split].
  destruct (Db.id_taken (Db.images w) (Db.fresh_id store)); cbn [negb];
    intros Hx; inversion Hx; repeat split.
Qed.

Lemma C7_witness :
  fetches (events Samples.saved_run) <> [] /\
  Forall (fun req => inputs req = ("a cat" ++ style_suffix)%string)
         (fetches (events Samples.saved_run)) /\
  inserts (events Samples.saved_run) = [Db.mkNew "alice" (Some Samples.picture) "a cat"] /\
  Saved = Saved /\
  Db.images (world Samples.saved_run) =
  [Db.mkRow "img-1" "alice" Samples.picture "a cat" 1000].
Proof.
  apply (C7_one_record_with_original_prompt
           Samples.alice "a cat" Samples.key (fun _ => Samples.answers Samples.success)
           Samples.conditions0 Samples.world0 Samples.saved_run Samples.picture Saved).
  - reflexivity.
  - reflexivity.
Defined.

(** C9. On a run whose save fails: the handler displays the image, submits
    the one insert, logs and shows 'Failed to save image', and goes on to
    its end (the success notification); the insert is not submitted again,
    the store is as before, and the displayed image is still the one that
    was set, whatever the state before the run. *)
Theorem C9_failed_save_is_reported_once
        (user : option User) (prompt : string) (apiKey : option string)
        (upstream : nat -> Attempt) (store : Db.Conditions) (w : Db.World)
        (run : Run) (image : option string) :
  generateImage user prompt apiKey upstream store w = Some run ->
  exit run = Displayed image SaveFailed ->
  save_failure_of SaveFailed = Some StoreError /\
  (exists pre row,
      events run =
      pre ++ [ESetGeneratedImage image; EInsert row;
              EConsoleError "Error saving image:"; EToastError msg_save_failed;
              EToastSuccess msg_generated] /\
      inserts pre = []) /\
  List.length (inserts (events run)) = 1%nat /\
  world run = w /\
  (forall ui, generatedImage (ui_after ui (events run)) = image).
Proof.
  intros Hrun Hexit.
  pose proof (HomeFacts.run_displayed _ _ _ _ _ _ _ _ _ _ Hrun eq_refl) as Hdisp.
  rewrite Hexit in Hdisp. destruct Hdisp as (pre & Hev & Hpre & Hx & Hw & _).
  destruct (HomeFacts.onloadend_shape user prompt store w image)
    as (evs & saved & w' & Hsave & Hshape).
  rewrite Hshape in Hx, Hw, Hev. cbn [exit world events] in Hx, Hw, Hev.
  inversion Hx; subst saved. subst w'.
  apply HomeFacts.saveImage_cases in Hsave.
  destruct Hsave as [(_ & _ & Hs & _)|(u & _ & [(_ & Hw' & _ & Hevs)|(Hs & _)])];
    try discriminate.
  subst evs.
  assert (Hshape' :
            exists pre',
              events run =
              pre' ++ [ESetGeneratedImage image; EInsert (Db.mkNew (uid u) image prompt);
                       EConsoleError "Error saving image:"; EToastError msg_save_failed;
                       EToastSuccess msg_generated] /\
              inserts pre' = []).
  { destruct image.
    - exists pre. split; [exact Hev|exact Hpre].
    - exists (pre ++ [EUncaught (Error "Failed to process the generated image")]). split.
      + rewrite Hev, <- app_assoc. reflexivity.
      + rewrite HomeFacts.inserts_app, Hpre. reflexivity. }
  destruct Hshape' as (pre' & Hev' & Hpre').
  split; [reflexivity|]. split; [eauto|].
  split; [rewrite Hev', HomeFacts.inserts_app, Hpre'; reflexivity|].
  split; [exact Hw'|].
  intros ui. rewrite Hev', HomeFacts.ui_after_app. reflexivity.
Qed.

Lemma C9_witness :
  save_failure_of SaveFailed = Some StoreError /\
  (exists pre row,
      events Samples.unsaved_run =
      pre ++ [ESetGeneratedImage (Some Samples.picture); EInsert row;
              EConsoleError "Error saving image:"; EToastError msg_save_failed;
              EToastSuccess msg_generated] /\
      inserts pre = []) /\
  List.length (inserts (events Samples.unsaved_run)) = 1%nat /\
  world Samples.unsaved_run = Samples.world0 /\
  (forall ui, generatedImage (ui_after ui (events Samples.unsaved_run)) = Some Samples.picture).
Proof.
  apply (C9_failed_save_is_reported_once
           (Some Samples.alice) "a cat" Samples.key (fun _ => Samples.answers Samples.success)
           Samples.store_down Samples.world0 Samples.unsaved_run (Some Samples.picture)).
  - reflexivity.
  - reflexivity.
Defined.

(** C8. For a signed-in user whose identity is the one the store sees,
    and a store that answers, loadImages hands to the gallery, in one
    piece, exactly the rows of the table owned by the user (each of them,
    as often as it is in the table), most recent first. Whatever identity
    the store sees, no row of another owner is ever among them. *)
Theorem C8_gallery_is_the_owners_rows_newest_first
        (u : User) (w : Db.World) (c : Db.Conditions) :
  Db.fault c = false ->
  exists data,
    Profile.loadImages (Some u) w c
    = ([Profile.ESetImages data; Profile.ESetLoading false], Some data) /\
    Forall (fun r => Db.user_id r = uid u) data /\
    newest_first data /\
    (Db.auth_uid w = Some (uid u) ->
     Permutation data (filter (fun r => String.eqb (Db.user_id r) (uid u)) (Db.images w))).
Proof.
  intros Hfault. unfold Profile.loadImages.
  destruct (Db.select_by_owner w c (uid u)) as [data|] eqn:S.
  - exists data. split; [reflexivity|].
    destruct (DbFacts.select_by_owner_spec _ _ _ _ S) as (Howner & Hsorted & Hperm).
    repeat split; auto.
    intros Hauth. rewrite Hperm, Hauth.
    rewrite DbFacts.filter_filter_implied; [apply Permutation_refl|].
    intros r Hr. cbn [Db.policy]. apply String.eqb_eq in Hr. rewrite Hr.
    apply String.eqb_refl.
  - unfold Db.select_by_owner in S. rewrite Hfault in S. discriminate.
Qed.

(** Alice's gallery over a table that also holds a row of Bob. *)
Lemma C8_witness :
  exists data,
    Profile.loadImages (Some Samples.alice) Samples.gallery Samples.conditions0
    = ([Profile.ESetImages data; Profile.ESetLoading false], Some data) /\
    Forall (fun r => Db.user_id r = "alice") data /\
    newest_first data /\
    Permutation data
                (filter (fun r => String.eqb (Db.user_id r) "alice")
                        (Db.images Samples.gallery)).
Proof.
  destruct (C8_gallery_is_the_owners_rows_newest_first
              Samples.alice Samples.gallery Samples.conditions0 eq_refl)
    as (data & Hload & Howner & Hsorted & Hfull).
  exists data. repeat split; try assumption. apply Hfull. reflexivity.
Defined.

(** The rows of that gallery, as returned. *)
Example gallery_of_alice :
  snd (Profile.loadImages (Some Samples.alice) Samples.gallery Samples.conditions0)
  = Some [Db.mkRow "c" "alice" "url-c" "a fox" 30; Db.mkRow "a" "alice" "url-a" "a cat" 10].
Proof. reflexivity. Qed.

(** A Retry-After header that is an HTTP date is not a number for
    [parseInt]: the delay is called with NaN. *)
Example retry_after_http_date :
  retry_after_ms (Samples.limited (Some "Wed, 21 Oct 2015 07:28:00 GMT")) = NaN.
Proof. reflexivity. Qed.

(** The [finally] of a call that retries runs once the next call has set
    the loading flag and issued its fetch: from then on the flag is off
    while that fetch is awaited. *)
Example loading_is_off_while_a_retry_is_awaited :
  exists before after,
    option_map events
               (generateImage (Some Samples.alice) "a cat" Samples.key
                              (fun _ => Samples.hangs) Samples.conditions0 Samples.world0)
    = Some (before ++ [ECall 1; ESetLoading true;
                       EFetch (request "a cat" Samples.key Samples.hangs);
                       ESetLoading false; EFetchWait 30000] ++ after) /\
    loading (ui_after (mkUi false None)
                      (before ++ [ECall 1; ESetLoading true;
                                  EFetch (request "a cat" Samples.key Samples.hangs);
                                  ESetLoading false])) = false.
Proof.
  eexists [_; _; _; _; _; _], _. split; reflexivity.
Qed.

End Claims.

(** ** More facts about the runs of generateImage *)

Module RunFacts.
Import JS Home Contract HomeView.
Local Open Scope list_scope.


Lemma some_includes_fault (ws : list json) (e : Thrown) :
  some_includes ws = inl e -> e = includes_of_null \/ e = includes_not_function.
Proof.
  induction ws as [|w ws IH]; [discriminate|]. cbn [some_includes].
  destruct w as [|b|z|s|items|props].
  - inversion 1; auto.
  - inversion 1; auto.
  - inversion 1; auto.
  - destruct (includes s cuda_marker); [discriminate|exact IH].
  - destruct (existsb is_marker items); [discriminate|exact IH].
  - inversion 1; auto.
Qed.

(** The errors thrown while inspecting a body are the engine's TypeErrors:
    none is the abort of the timer and none is taken for a network failure. *)
Lemma body_fault_not_transport (r : Response) (e : Thrown) :
  body_fault r = Some e -> transport_failure e = false /\ is_abort e = false.
Proof.
  unfold body_fault, read_error_data.
  destruct (json_body r) as [j|]; [|inversion 1; split; reflexivity].
  destruct (truthy j); [|inversion 1; split; reflexivity].
  unfold cuda_check. destruct (typeof_object j); [|discriminate].
  destruct j as [|b|z|s|items|props]; try discriminate.
  - inversion 1; split; reflexivity.
  - destruct (truthy_opt (get_prop props "error")); [|discriminate].
    destruct (get_prop props "warnings") as [w|]; [|discriminate].
    destruct (truthy w); [|discriminate].
    destruct w as [|b|z|s|ws|ps]; try (inversion 1; split; reflexivity).
    destruct (some_includes ws) as [e'|b] eqn:S; [|discriminate].
    inversion 1; subst. destruct (some_includes_fault _ _ S) as [-> | ->]; split; reflexivity.
Qed.

Lemma body_fault_try (rc : nat) (r : Response) (e : Thrown) :
  ok r = false -> body_fault r = Some e -> try_body rc (Resolved r) = TryThrow e.
Proof.
  intros Hok. unfold body_fault. cbn [try_body]. rewrite Hok. cbn [negb].
  destruct (read_error_data r) as [e1|j]; [now inversion 1|].
  destruct (cuda_check j) as [e2|b]; [now inversion 1|discriminate].
Qed.

(** The store refuses a row without an image. *)
Lemma insert_without_image (w : Db.World) (c : Db.Conditions) (owner p : string) :
  Db.insert w c (Db.mkNew owner None p) = (w, true).
Proof.
  unfold Db.insert. cbn [Db.new_image_url Db.new_user_id].
  destruct (Db.fault c); [reflexivity|].
  now destruct (negb (Db.policy (Db.auth_uid w) owner)).
Qed.

Lemma toasts_app (a b : list Event) : toasts (a ++ b) = toasts a ++ toasts b.
Proof. apply filter_app. Qed.

Lemma fetch_waits_app (a b : list Event) : fetch_waits (a ++ b) = fetch_waits a ++ fetch_waits b.
Proof. apply flat_map_app. Qed.

(** A retry decided inside the [try] block waits the fixed delay, or, for
    a 429, the hint of that response. *)
Lemma try_retry_delay (rc : nat) (s : Settle) (ms : JsNumber) :
  try_body rc s = TryRetry ms ->
  ms = Some RETRY_DELAY \/
  exists r, s = Resolved r /\ status r = 429 /\ ms = retry_after_ms r.
Proof.
  unfold try_body. destruct s as [r|e]; [|discriminate].
  destruct (negb (ok r)).
  - destruct (read_error_data r) as [e|j]; [discriminate|].
    destruct (cuda_check j) as [e|cuda]; [discriminate|].
    destruct (cuda && (rc <? MAX_RETRIES)%nat)%bool; [inversion 1; auto|].
    destruct (status r =? 429) eqn:E; cbn [andb]; [|discriminate].
    destruct (rc <? MAX_RETRIES)%nat; [|discriminate].
    inversion 1. right. exists r. apply Z.eqb_eq in E. auto.
  - destruct (blob_read r); discriminate.
Qed.

Section Closure.

Variable user : option User.
Variable prompt : string.
Variable apiKey : option string.
Variable upstream : nat -> Attempt.
Variable store : Db.Conditions.

Notation generateImage_from := (generateImage_from user prompt apiKey upstream store).
Notation attempt := (attempt user prompt apiKey upstream store).
Notation started := (started prompt apiKey upstream).
Notation guard := (guard user prompt apiKey).
Notation onloadend := (onloadend user prompt store).
Notation saveImage := (saveImage user store).
Notation request := (request prompt apiKey).
Notation run_ind := (HomeFacts.generateImage_from_run_ind user prompt apiKey upstream store).
Notation attempt_again := (HomeFacts.attempt_again user prompt apiKey upstream store).
Notation attempt_finish := (HomeFacts.attempt_finish user prompt apiKey upstream store).
Notation onloadend_shape := (HomeFacts.onloadend_shape user prompt store).
Notation saveImage_cases := (HomeFacts.saveImage_cases user store).

(** Each guard has its own notification and exit. *)
Lemma guard_pairs (message : string) (x : Exit) :
  guard = Some (message, x) ->
  (message = msg_sign_in_generate /\ x = NoUser /\ user = None) \/
  (message = msg_enter_prompt /\ x = NoPrompt /\ blank prompt = true) \/
  (message = msg_no_client /\ x = NoClient /\ key_absent apiKey).
Proof.
  unfold Home.guard. destruct user; [|inversion 1; auto].
  destruct (negb (truthy_string (trim prompt))) eqn:T.
  - inversion 1. right. left. repeat split.
    apply negb_true_iff in T. now apply JSFacts.trim_falsy_iff_blank.
  - unfold hf, init_hf. destruct apiKey as [k|].
    + destruct k; cbn [truthy_string]; inversion 1. right. right. repeat split. now right.
    + inversion 1. right. right. repeat split. now left.
Qed.

(** What the guards have checked when they let a call through. *)
Lemma guard_none (G : guard = None) :
  exists u k, user = Some u /\ blank prompt = false /\ apiKey = Some k /\ truthy_string k = true.
Proof.
  revert G. unfold Home.guard. destruct user as [u|]; [|discriminate].
  destruct (negb (truthy_string (trim prompt))) eqn:T; [discriminate|].
  unfold hf, init_hf. destruct apiKey as [k|]; [|discriminate].
  destruct (truthy_string k) eqn:K; [|discriminate].
  intros _. exists u, k. repeat split; auto.
  destruct (blank prompt) eqn:B; [|reflexivity].
  apply JSFacts.trim_falsy_iff_blank in B. rewrite B in T. discriminate.
Qed.

Lemma ui_started (ui : Ui) (rc : nat) (pending : list Event) :
  pending_ok pending ->
  ui_after ui (started rc pending)
  = mkUi (match pending with [] => true | _ => false end) (generatedImage ui).
Proof. intros [-> | ->]; reflexivity. Qed.

(** The load-end handler sets the displayed image and leaves the loading
    flag alone. *)
Lemma ui_onloadend (ui : Ui) (w : Db.World) (result : option string) :
  ui_after ui (events (onloadend w result)) = mkUi (loading ui) result.
Proof.
  destruct (onloadend_shape w result) as (evs & saved & w' & Hs & ->).
  apply saveImage_cases in Hs.
  destruct Hs as [(_ & -> & _)|(u & _ & [(_ & _ & _ & ->)|(_ & _ & ->)])];
    destruct result; reflexivity.
Qed.

Lemma toasts_onloadend (w : Db.World) (result : option string) :
  exists saved,
    exit (onloadend w result) = Displayed result saved /\
    toasts (events (onloadend w result)) =
    [match saved with
     | SaveNoUser => EToastError msg_sign_in_save
     | SaveFailed => EToastError msg_save_failed
     | Saved => EToastSuccess msg_saved
     end; EToastSuccess msg_generated].
Proof.
  destruct (onloadend_shape w result) as (evs & saved & w' & Hs & ->).
  exists saved. split; [reflexivity|].
  apply saveImage_cases in Hs.
  destruct Hs as [(_ & -> & -> & _)|(u & _ & [(-> & _ & _ & ->)|(-> & _ & ->)])];
    destruct result; reflexivity.
Qed.

Lemma no_waits_onloadend (w : Db.World) (result : option string) :
  fetch_waits (events (onloadend w result)) = [] /\ delays (events (onloadend w result)) = [].
Proof.
  destruct (onloadend_shape w result) as (evs & saved & w' & Hs & ->).
  apply saveImage_cases in Hs.
  destruct Hs as [(_ & -> & _)|(u & _ & [(_ & _ & _ & ->)|(_ & _ & ->)])];
    destruct result; split; reflexivity.
Qed.

(** A call that passes the guards begins by setting the loading flag and
    issuing its fetch; the caller's [finally] comes next. *)
Lemma run_starts (fuel : nat) (w : Db.World) (rc : nat) (pending : list Event) (run : Run) :
  guard = None ->
  generateImage_from (S fuel) w rc pending = Some run ->
  exists rest, events run = started rc pending ++ rest.
Proof.
  intros G. rewrite HomeFacts.generateImage_from_unfold, G.
  destruct (attempt w rc pending) as [evs ms|r] eqn:A.
  - destruct (generateImage_from fuel w (S rc) [ESetLoading false]) as [inner|];
      [|discriminate].
    inversion 1. apply attempt_again in A. destruct A as [_ [-> | ->]];
      cbn [prepend events]; rewrite <- ?app_assoc; eauto.
  - inversion 1; subst. apply attempt_finish in A.
    destruct A as [(e & ->)|(result & ->)]; cbn [prepend events];
      rewrite <- ?app_assoc; eauto.
Qed.

(** The state of the component after a run that passed the guards: the
    loading flag is off; the displayed image is the new one, or the one
    displayed before when the run failed. *)
Lemma run_ui (w : Db.World) (fuel rc : nat) (pending : list Event) (run : Run) :
  generateImage_from fuel w rc pending = Some run ->
  guard = None -> pending_ok pending ->
  forall ui,
    match exit run with
    | Displayed image _ => ui_after ui (events run) = mkUi false image
    | Surfaced _ => ui_after ui (events run) = mkUi false (generatedImage ui)
    | _ => False
    end.
Proof.
  revert fuel rc pending run.
  apply (run_ind w
           (fun rc pending run =>
              guard = None -> pending_ok pending ->
              forall ui,
                match exit run with
                | Displayed image _ => ui_after ui (events run) = mkUi false image
                | Surfaced _ => ui_after ui (events run) = mkUi false (generatedImage ui)
                | _ => False
                end)).
  - intros rc pending m x G G'. congruence.
  - intros rc pending run _ A _ Hp ui.
    apply attempt_finish in A. destruct A as [(e & ->)|(result & ->)].
    + cbn [exit events]. rewrite HomeFacts.ui_after_app, (ui_started _ _ _ Hp). reflexivity.
    + destruct (onloadend_shape w result) as (evs & saved & w' & _ & Hshape).
      assert (Hexit : exit (onloadend w result) = Displayed result saved)
        by now rewrite Hshape.
      cbn [prepend exit events]. rewrite Hexit.
      rewrite !HomeFacts.ui_after_app, (ui_started _ _ _ Hp), ui_onloadend. reflexivity.
  - intros rc pending evs ms inner _ A IH G Hp ui.
    specialize (IH G (or_intror eq_refl)).
    apply attempt_again in A. destruct A as [_ Hevs].
    cbn [prepend exit events]. rewrite HomeFacts.ui_after_app.
    specialize (IH (ui_after ui (evs ++ [EDelay ms]))).
    assert (Hg : generatedImage (ui_after ui (evs ++ [EDelay ms])) = generatedImage ui).
    { destruct Hevs as [-> | ->]; rewrite !HomeFacts.ui_after_app, (ui_started _ _ _ Hp);
        reflexivity. }
    destruct (exit inner); try exact IH. now rewrite IH, Hg.
Qed.

(** Call number [n] sends the request built from attempt [n], and a run
    stopped by a guard sends none. *)
Lemma run_requests_by_call (w : Db.World) (fuel rc : nat) (pending : list Event) (run : Run) :
  generateImage_from fuel w rc pending = Some run ->
  calls pending = [] -> fetches pending = [] ->
  fetches (events run) =
  match guard with
  | None => map (fun n => request (upstream n)) (calls (events run))
  | Some _ => []
  end.
Proof.
  revert fuel rc pending run.
  apply (run_ind w
           (fun rc pending run =>
              calls pending = [] -> fetches pending = [] ->
              fetches (events run) =
              match guard with
              | None => map (fun n => request (upstream n)) (calls (events run))
              | Some _ => []
              end)).
  - intros rc pending m x G Hc Hf. rewrite G. exact Hf.
  - intros rc pending run G A Hc Hf. rewrite G.
    apply attempt_finish in A. destruct A as [(e & ->)|(result & ->)].
    + cbn [events].
      rewrite HomeFacts.calls_app, HomeFacts.fetches_app, HomeFacts.calls_started,
        HomeFacts.fetches_started, Hc, Hf. reflexivity.
    + rewrite HomeFacts.events_prepend, !HomeFacts.calls_app, !HomeFacts.fetches_app,
        HomeFacts.calls_started, HomeFacts.fetches_started, Hc, Hf.
      destruct (HomeFacts.onloadend_no_calls user prompt store w result) as [-> ->].
      reflexivity.
  - intros rc pending evs ms inner G A IH Hc Hf. rewrite G in *.
    specialize (IH eq_refl eq_refl).
    apply attempt_again in A. destruct A as [_ Hevs].
    rewrite HomeFacts.events_prepend, HomeFacts.calls_app, HomeFacts.fetches_app, IH, map_app.
    f_equal.
    destruct Hevs as [-> | ->];
      rewrite ?HomeFacts.calls_app, ?HomeFacts.fetches_app, HomeFacts.calls_started,
        HomeFacts.fetches_started, Hc, Hf; reflexivity.
Qed.

Lemma fetch_waits_started (rc : nat) (pending : list Event) :
  pending_ok pending ->
  fetch_waits (started rc pending) = [fst (fetch_with_abort (upstream rc))] /\
  delays (started rc pending) = [] /\
  toasts (started rc pending) = [].
Proof. intros [-> | ->]; repeat split; reflexivity. Qed.

Lemma fetch_wait_bounded (a : Attempt) : fst (fetch_with_abort a) <= FETCH_TIMEOUT.
Proof.
  unfold fetch_with_abort. destruct (latency a <? FETCH_TIMEOUT) eqn:E; cbn [fst]; [|lia].
  apply Z.ltb_lt in E. lia.
Qed.

(** The delay an attempt asks for is explained by that attempt. *)
Lemma attempt_again_delay (w : Db.World) (rc : nat) (pending evs : list Event)
      (ms : JsNumber) :
  attempt w rc pending = Again evs ms -> delay_explained upstream ms.
Proof.
  intros A. pose proof (HomeFacts.attempt_again_bound _ _ _ _ _ _ _ _ _ _ A) as Hrc.
  unfold Home.attempt in A.
  destruct (try_body rc _) as [ms'|e|res] eqn:T; [| |discriminate].
  - inversion A; subst. apply try_retry_delay in T.
    destruct T as [-> | (r & Hs & H429 & ->)]; [now left|].
    right. exists rc, r. unfold fetch_with_abort in Hs.
    destruct (latency (upstream rc) <? FETCH_TIMEOUT) eqn:E; cbn [snd] in Hs;
      [|discriminate].
    apply Z.ltb_lt in E. auto.
  - destruct (catch_retries rc e); inversion A. now left.
Qed.

(** In a run that passed the guards every call awaits one fetch, for at
    most the time of the abort timer; one delay separates two calls, and
    each delay is explained. *)
Lemma run_waits (w : Db.World) (fuel rc : nat) (pending : list Event) (run : Run) :
  generateImage_from fuel w rc pending = Some run ->
  guard = None -> pending_ok pending ->
  List.length (fetch_waits (events run)) = List.length (calls (events run)) /\
  S (List.length (delays (events run))) = List.length (calls (events run)) /\
  Forall (fun ms => ms <= FETCH_TIMEOUT) (fetch_waits (events run)) /\
  Forall (delay_explained upstream) (delays (events run)).
Proof.
  revert fuel rc pending run.
  apply (run_ind w
           (fun rc pending run =>
              guard = None -> pending_ok pending ->
              List.length (fetch_waits (events run)) = List.length (calls (events run)) /\
              S (List.length (delays (events run))) = List.length (calls (events run)) /\
              Forall (fun ms => ms <= FETCH_TIMEOUT) (fetch_waits (events run)) /\
              Forall (delay_explained upstream) (delays (events run)))).
  - intros rc pending m x G G'. congruence.
  - intros rc pending run _ A _ Hp.
    assert (Hc : calls pending = []) by (destruct Hp as [-> | ->]; reflexivity).
    destruct (fetch_waits_started rc pending Hp) as (Hw & Hd & _).
    apply attempt_finish in A. destruct A as [(e & ->)|(result & ->)].
    + cbn [events].
      rewrite fetch_waits_app, HomeFacts.delays_app, HomeFacts.calls_app,
        HomeFacts.calls_started, Hw, Hd, Hc. cbn.
      repeat split; auto. repeat constructor. apply fetch_wait_bounded.
    + rewrite HomeFacts.events_prepend, !fetch_waits_app, !HomeFacts.delays_app,
        !HomeFacts.calls_app, HomeFacts.calls_started, Hw, Hd, Hc.
      destruct (no_waits_onloadend w result) as [-> ->].
      destruct (HomeFacts.onloadend_no_calls user prompt store w result) as [-> _]. cbn.
      repeat split; auto. repeat constructor. apply fetch_wait_bounded.
  - intros rc pending evs ms inner _ A IH G Hp.
    destruct (IH G (or_intror eq_refl)) as (IHw & IHd & IHb & IHe).
    assert (Hc : calls pending = []) by (destruct Hp as [-> | ->]; reflexivity).
    destruct (fetch_waits_started rc pending Hp) as (Hw & Hd & _).
    pose proof (attempt_again_delay _ _ _ _ _ A) as Hms.
    apply attempt_again in A. destruct A as [_ Hevs].
    assert (Hpre : fetch_waits (evs ++ [EDelay ms]) = [fst (fetch_with_abort (upstream rc))] /\
                   delays (evs ++ [EDelay ms]) = [ms] /\
                   calls (evs ++ [EDelay ms]) = [rc]).
    { destruct Hevs as [-> | ->];
        rewrite ?fetch_waits_app, ?HomeFacts.delays_app, ?HomeFacts.calls_app,
          HomeFacts.calls_started, Hw, Hd, Hc; repeat split; reflexivity. }
    destruct Hpre as (Hpw & Hpd & Hpc).
    rewrite HomeFacts.events_prepend, fetch_waits_app, HomeFacts.delays_app,
      HomeFacts.calls_app, Hpw, Hpd, Hpc.
    cbn [app List.length]. repeat split.
    + now rewrite IHw.
    + now rewrite IHd.
    + constructor; [apply fetch_wait_bounded|exact IHb].
    + constructor; [exact Hms|exact IHe].
Qed.

(** The notifications of a run: one error for a run that fails, whatever
    the number of attempts; for a displayed image, the outcome of the save
    and then the success. *)
Lemma run_toasts (w : Db.World) (fuel rc : nat) (pending : list Event) (run : Run) :
  generateImage_from fuel w rc pending = Some run ->
  pending_ok pending ->
  toasts (events run) =
  match exit run with
  | NoUser => [EToastError msg_sign_in_generate]
  | NoPrompt => [EToastError msg_enter_prompt]
  | NoClient => [EToastError msg_no_client]
  | Surfaced e => [EToastError (errorMessage e)]
  | Displayed _ saved =>
      [match saved with
       | SaveNoUser => EToastError msg_sign_in_save
       | SaveFailed => EToastError msg_save_failed
       | Saved => EToastSuccess msg_saved
       end; EToastSuccess msg_generated]
  end.
Proof.
  revert fuel rc pending run.
  apply (run_ind w
           (fun rc pending run =>
              pending_ok pending ->
              toasts (events run) =
              match exit run with
              | NoUser => [EToastError msg_sign_in_generate]
              | NoPrompt => [EToastError msg_enter_prompt]
              | NoClient => [EToastError msg_no_client]
              | Surfaced e => [EToastError (errorMessage e)]
              | Displayed _ saved =>
                  [match saved with
                   | SaveNoUser => EToastError msg_sign_in_save
                   | SaveFailed => EToastError msg_save_failed
                   | Saved => EToastSuccess msg_saved
                   end; EToastSuccess msg_generated]
              end)).
  - intros rc pending m x G Hp.
    destruct (guard_pairs _ _ G) as [(-> & -> & _)|[(-> & -> & _)|(-> & -> & _)]];
      destruct Hp as [-> | ->]; reflexivity.
  - intros rc pending run _ A Hp.
    destruct (fetch_waits_started rc pending Hp) as (_ & _ & Ht).
    apply attempt_finish in A. destruct A as [(e & ->)|(result & ->)].
    + cbn [events exit]. rewrite toasts_app, Ht. reflexivity.
    + destruct (toasts_onloadend w result) as (saved & Hexit & Htoasts).
      cbn [prepend exit events]. rewrite Hexit, !toasts_app, Ht, Htoasts. reflexivity.
  - intros rc pending evs ms inner _ A IH Hp.
    specialize (IH (or_intror eq_refl)).
    destruct (fetch_waits_started rc pending Hp) as (_ & _ & Ht).
    apply attempt_again in A. destruct A as [_ Hevs].
    cbn [prepend exit events]. rewrite toasts_app, IH.
    destruct Hevs as [-> | ->]; rewrite !toasts_app, Ht; reflexivity.
Qed.

(** A first call always yields a run. *)
Lemma generateImage_runs (w : Db.World) :
  exists run, generateImage user prompt apiKey upstream store w = Some run.
Proof.
  apply HomeFacts.generateImage_from_total; unfold MAX_RETRIES; lia.
Qed.

(** A first call either stops at a guard or passes them all. *)
Lemma generateImage_guarded (w : Db.World) (run : Run) :
  generateImage user prompt apiKey upstream store w = Some run ->
  (exists message x,
      guard = Some (message, x) /\ run = mkRun [ECall 0; EToastError message] x w) \/
  guard = None.
Proof.
  unfold generateImage. rewrite HomeFacts.generateImage_from_unfold.
  destruct guard as [[m x]|]; [|now right].
  inversion 1. left. eauto.
Qed.

(** An accepted insert took an unused id under the owner's own session,
    and the store's session is as before. *)
Lemma insert_accepted_fresh (w w' : Db.World) (r : Db.NewImage) :
  Db.insert w store r = (w', false) ->
  Db.id_taken (Db.images w) (Db.fresh_id store) = false /\
  Db.auth_uid w' = Db.auth_uid w.
Proof.
  unfold Db.insert.
  destruct (Db.fault store); [discriminate|].
  destruct (negb (Db.policy (Db.auth_uid w) (Db.new_user_id r))); [discriminate|].
  destruct (Db.new_image_url r); [|discriminate].
  destruct (Db.id_taken (Db.images w) (Db.fresh_id store)); [discriminate|].
  inversion 1. split; reflexivity.
Qed.

End Closure.

Lemma id_taken_false (rows : list Db.ImageRow) (i : string) :
  Db.id_taken rows i = false -> ~ In i (map Db.id rows).
Proof.
  unfold Db.id_taken. induction rows as [|x rows IH]; cbn [existsb map In]; [tauto|].
  intros H. apply orb_false_iff in H. destruct H as [Hx Hrest].
  apply String.eqb_neq in Hx. intros [Heq|Hin]; [congruence|now apply IH].
Qed.

End RunFacts.

(** ** Further properties of the code *)

Module Extras.
Import JS Home Contract HomeView.
Local Open Scope list_scope.

(** X1. A failed response whose body cannot be inspected is never retried,
    whatever its status and the retry count: when reading the body throws
    (it is not JSON, or parses to a falsy value, so that the fallback
    [response.text()] rejects) or testing it for the warning throws (a
    [warnings] that is not an array of strings), the call logs the error,
    shows its message and stops. *)
Theorem X1_uninspectable_error_body_is_surfaced_at_once
        (u : User) (prompt k : string) (upstream : nat -> Attempt)
        (store : Db.Conditions) (w : Db.World)
        (fuel rc : nat) (pending : list Event) (r : Response) (e : Thrown) :
  blank prompt = false -> truthy_string k = true ->
  latency (upstream rc) < FETCH_TIMEOUT ->
  settle (upstream rc) = Resolved r ->
  ok r = false -> body_fault r = Some e ->
  generateImage_from (Some u) prompt (Some k) upstream store (S fuel) w rc pending =
  Some (mkRun (started prompt (Some k) upstream rc pending
                 ++ [EConsoleError "Error generating image:";
                     EToastError (errorMessage e); ESetLoading false])
              (Surfaced e) w) /\
  failure_of (Surfaced e) = Some UpstreamError /\
  (json_body r = None -> e = body_used).
Proof.
  intros Hb Hk Hlat Hsettle Hok Hfault.
  pose proof (HomeFacts.guard_ready (Some u) prompt (Some k) u k eq_refl Hb eq_refl Hk) as G.
  destruct (RunFacts.body_fault_not_transport r e Hfault) as [Ht Ha].
  split; [|split].
  - apply HomeFacts.finish_step; [exact G|].
    unfold attempt. rewrite (HomeFacts.fetch_in_time _ Hlat), Hsettle. cbn [snd].
    rewrite (RunFacts.body_fault_try rc r e Hok Hfault).
    rewrite HomeFacts.catch_retries_transport, Ht. cbn [andb].
    now rewrite <- app_assoc.
  - cbn [failure_of]. now rewrite Ha.
  - intros Hnone. unfold body_fault, read_error_data in Hfault. rewrite Hnone in Hfault.
    now inversion Hfault.
Qed.

(** A 429 with a plain-text body, at the first call. *)
Lemma X1_witness :
  generateImage_from (Some Samples.alice) "a cat" (Some "hf_key")
                     (fun _ => Samples.answers Samples.limited_plain) Samples.conditions0
                     4 Samples.world0 0 [] =
  Some (mkRun (started "a cat" (Some "hf_key")
                       (fun _ => Samples.answers Samples.limited_plain) 0 []
                 ++ [EConsoleError "Error generating image:";
                     EToastError (errorMessage body_used); ESetLoading false])
              (Surfaced body_used) Samples.world0) /\
  failure_of (Surfaced body_used) = Some UpstreamError /\
  body_used = body_used.
Proof.
  destruct (X1_uninspectable_error_body_is_surfaced_at_once
              Samples.alice "a cat" "hf_key" (fun _ => Samples.answers Samples.limited_plain)
              Samples.conditions0 Samples.world0 3 0 [] Samples.limited_plain body_used
              eq_refl eq_refl eq_refl eq_refl eq_refl eq_refl) as (Hrun & Hfail & Hbody).
  split; [exact Hrun|]. split; [exact Hfail|]. apply Hbody. reflexivity.
Defined.



(** X3. When the image of a successful response cannot be read (the
    reader fails, its result is null), the handler still runs to its end:
    the uncaught error of the error handler, the displayed image set to
    null, an insert without image that no store accepts, 'Failed to save
    image' and then 'Image generated successfully!'. The store is as
    before and nothing is displayed any more. *)
Theorem X3_unreadable_image_clears_the_display_and_claims_success
        (u : User) (prompt k : string) (upstream : nat -> Attempt)
        (store : Db.Conditions) (w : Db.World)
        (fuel rc : nat) (pending : list Event) (r : Response) :
  blank prompt = false -> truthy_string k = true ->
  latency (upstream rc) < FETCH_TIMEOUT ->
  settle (upstream rc) = Resolved r ->
  ok r = true -> blob_read r = ReadFailed ->
  let run :=
    mkRun (started prompt (Some k) upstream rc pending
             ++ [ESetLoading false;
                 EUncaught (Error "Failed to process the generated image");
                 ESetGeneratedImage None;
                 EInsert (Db.mkNew (uid u) None prompt);
                 EConsoleError "Error saving image:";
                 EToastError msg_save_failed;
                 EToastSuccess msg_generated])
          (Displayed None SaveFailed) w in
  generateImage_from (Some u) prompt (Some k) upstream store (S fuel) w rc pending = Some run /\
  (forall ui, generatedImage (ui_after ui (events run)) = None).
Proof.
  intros Hb Hk Hlat Hsettle Hok Hblob run. subst run.
  pose proof (HomeFacts.guard_ready (Some u) prompt (Some k) u k eq_refl Hb eq_refl Hk) as G.
  split.
  - apply HomeFacts.finish_step; [exact G|].
    unfold attempt. rewrite (HomeFacts.fetch_in_time _ Hlat), Hsettle. cbn [snd try_body].
    rewrite Hok, Hblob. cbn [negb].
    unfold onloadend, saveImage. rewrite RunFacts.insert_without_image.
    unfold prepend. cbn [events exit world]. now rewrite <- app_assoc.
  - intros ui. cbn [events]. rewrite HomeFacts.ui_after_app. reflexivity.
Qed.

(** A 200 whose body the reader cannot read. *)
Lemma X3_witness :
  let r := mkResponse 200 None None ReadFailed in
  let upstream := fun _ : nat => Samples.answers r in
  let run :=
    mkRun (started "a cat" (Some "hf_key") upstream 0 []
             ++ [ESetLoading false;
                 EUncaught (Error "Failed to process the generated image");
                 ESetGeneratedImage None;
                 EInsert (Db.mkNew "alice" None "a cat");
                 EConsoleError "Error saving image:";
                 EToastError msg_save_failed;
                 EToastSuccess msg_generated])
          (Displayed None SaveFailed) Samples.world0 in
  generateImage_from (Some Samples.alice) "a cat" (Some "hf_key") upstream
                     Samples.conditions0 4 Samples.world0 0 [] = Some run /\
  (forall ui, generatedImage (ui_after ui (events run)) = None).
Proof.
  intros r upstream run.
  apply (X3_unreadable_image_clears_the_display_and_claims_success
           Samples.alice "a cat" "hf_key" upstream Samples.conditions0 Samples.world0
           3 0 [] r); reflexivity.
Defined.

(** X4. What a call of generateImage leaves in the state of the
    component. A call stopped by a guard leaves it untouched. Any other
    call ends with the loading flag off, so that no failure keeps the
    trigger disabled; it ends with the new image displayed when one was
    read, and with the image displayed before when the run failed. *)
Theorem X4_state_after_a_run
        (user : option User) (prompt : string) (apiKey : option string)
        (upstream : nat -> Attempt) (store : Db.Conditions) (w : Db.World) (ui : Ui) :
  exists run,
    generateImage user prompt apiKey upstream store w = Some run /\
    ui_after ui (events run) =
    match exit run with
    | NoUser | NoPrompt | NoClient => ui
    | Surfaced _ => mkUi false (generatedImage ui)
    | Displayed image _ => mkUi false image
    end.
Proof.
  destruct (RunFacts.generateImage_runs user prompt apiKey upstream store w) as [run Hrun].
  exists run. split; [exact Hrun|].
  destruct (RunFacts.generateImage_guarded _ _ _ _ _ _ _ Hrun) as [(m & x & G & ->)|G].
  - cbn [exit events].
    destruct (RunFacts.guard_pairs _ _ _ _ _ G) as [(_ & -> & _)|[(_ & -> & _)|(_ & -> & _)]];
      destruct ui; reflexivity.
  - pose proof (RunFacts.run_ui _ _ _ _ _ _ _ _ _ _ Hrun G (or_introl eq_refl) ui) as H.
    destruct (exit run); try contradiction; exact H.
Qed.

(** X5. While a retry is awaited the trigger is not blocked. In a run
    that calls generateImage a second time, at the moment the second fetch
    has been issued and is awaited the caller's [finally] has already
    switched the loading flag off: the Enter key would start another
    generateImage and the Generate button is enabled. *)
Theorem X5_trigger_is_enabled_while_a_retry_is_awaited
        (user : option User) (prompt : string) (apiKey : option string)
        (upstream : nat -> Attempt) (store : Db.Conditions) (w : Db.World) (run : Run) :
  generateImage user prompt apiKey upstream store w = Some run ->
  In 1%nat (calls (events run)) ->
  exists before waited after,
    events run = before ++ EFetchWait waited :: after /\
    calls before = [0; 1]%nat /\
    fetches before = [request prompt apiKey (upstream 0%nat);
                      request prompt apiKey (upstream 1%nat)] /\
    List.length (fetch_waits before) = 1%nat /\
    (forall ui,
        loading (ui_after ui before) = false /\
        handleKeyPress "Enter" (loading (ui_after ui before)) user = true /\
        button_disabled (loading (ui_after ui before)) user = false).
Proof.
  intros Hrun Hin.
  destruct (RunFacts.generateImage_guarded _ _ _ _ _ _ _ Hrun) as [(m & x & G & ->)|G].
  { cbn in Hin. destruct Hin as [H|[]]. discriminate. }
  destruct (RunFacts.guard_none _ _ _ G) as (u & k & -> & _ & _ & _).
  unfold generateImage in Hrun. rewrite HomeFacts.generateImage_from_unfold, G in Hrun.
  destruct (attempt (Some u) prompt apiKey upstream store w 0 []) as [evs ms|r] eqn:A.
  - destruct (generateImage_from (Some u) prompt apiKey upstream store MAX_RETRIES w 1
                                 [ESetLoading false]) as [inner|] eqn:I; [|discriminate].
    inversion Hrun; subst run; clear Hrun.
    destruct (RunFacts.run_starts _ _ _ _ _ _ _ _ _ _ G I) as [rest Hrest].
    apply HomeFacts.attempt_again in A. destruct A as [_ Hevs].
    exists ((evs ++ [EDelay ms])
              ++ [ECall 1; ESetLoading true; EFetch (request prompt apiKey (upstream 1%nat));
                  ESetLoading false]),
           (fst (fetch_with_abort (upstream 1%nat))), rest.
    split.
    { cbn [prepend events]. rewrite Hrest. unfold started. cbn [app].
      rewrite <- !app_assoc. reflexivity. }
    destruct Hevs as [-> | ->]; repeat split; reflexivity.
  - exfalso. inversion Hrun; subst run; clear Hrun.
    apply HomeFacts.attempt_finish in A. destruct A as [(e & ->)|(result & ->)].
    + cbn [events] in Hin.
      rewrite HomeFacts.calls_app, HomeFacts.calls_started in Hin.
      cbn in Hin. destruct Hin as [H|[]]. discriminate.
    + rewrite HomeFacts.events_prepend, !HomeFacts.calls_app, HomeFacts.calls_started in Hin.
      destruct (HomeFacts.onloadend_no_calls (Some u) prompt store w result) as [Hc _].
      rewrite Hc in Hin. cbn in Hin. destruct Hin as [H|[]]. discriminate.
Qed.

(** The run against an upstream that never answers in time retries. *)
Lemma X5_witness :
  exists before waited after,
    events MoreSamples.timed_out_run = before ++ EFetchWait waited :: after /\
    calls before = [0; 1]%nat /\
    fetches before = [request "a cat" Samples.key Samples.hangs;
                      request "a cat" Samples.key Samples.hangs] /\
    List.length (fetch_waits before) = 1%nat /\
    (forall ui,
        loading (ui_after ui before) = false /\
        handleKeyPress "Enter" (loading (ui_after ui before)) (Some Samples.alice) = true /\
        button_disabled (loading (ui_after ui before)) (Some Samples.alice) = false).
Proof.
  apply (X5_trigger_is_enabled_while_a_retry_is_awaited
           (Some Samples.alice) "a cat" Samples.key (fun _ => Samples.hangs)
           Samples.conditions0 Samples.world0 MoreSamples.timed_out_run).
  - reflexivity.
  - right. left. reflexivity.
Defined.

(** X6. Every request of a run goes to the one inference endpoint, with
    the configured key, which is not empty, as bearer token, the prompt
    followed by the style suffix as input and the fixed generation
    parameters; call number [n] sends the seed drawn at attempt [n], and
    that is all in which the requests of a run differ. *)
Theorem X6_requests_carry_the_configured_key
        (user : option User) (prompt : string) (apiKey : option string)
        (upstream : nat -> Attempt) (store : Db.Conditions) (w : Db.World) (run : Run) :
  generateImage user prompt apiKey upstream store w = Some run ->
  fetches (events run) <> [] ->
  exists k,
    apiKey = Some k /\ k <> EmptyString /\
    fetches (events run) =
    map (fun n =>
           mkRequest endpoint ("Bearer " ++ k)%string (prompt ++ style_suffix)%string
                     (mkParameters negative_prompt_text 50 9 768 768
                                   (random_seed (upstream n))))
        (calls (events run)).
Proof.
  intros Hrun Hfetched.
  pose proof (RunFacts.run_requests_by_call _ _ _ _ _ _ _ _ _ _ Hrun eq_refl eq_refl) as Hreq.
  destruct (guard user prompt apiKey) as [[m x]|] eqn:G; [congruence|].
  destruct (RunFacts.guard_none _ _ _ G) as (u & k & _ & _ & -> & Hk).
  exists k. split; [reflexivity|]. split; [|exact Hreq].
  intros ->. discriminate.
Qed.

Lemma X6_witness :
  exists k,
    Samples.key = Some k /\ k <> EmptyString /\
    fetches (events Samples.saved_run) =
    map (fun n =>
           mkRequest endpoint ("Bearer " ++ k)%string ("a cat" ++ style_suffix)%string
                     (mkParameters negative_prompt_text 50 9 768 768
                                   (random_seed (Samples.answers Samples.success))))
        (calls (events Samples.saved_run)).
Proof.
  apply (X6_requests_carry_the_configured_key
           (Some Samples.alice) "a cat" Samples.key (fun _ => Samples.answers Samples.success)
           Samples.conditions0 Samples.world0 Samples.saved_run).
  - reflexivity.
  - discriminate.
Defined.

(** X7. The shape in time of a run that passes the guards: at most four
    calls; each call awaits one fetch, for 30000 ms at most; consecutive
    calls are separated by exactly one delay; and a delay is 2000 ms
    unless the attempt before it received, in time, a 429, in which case it
    may be the hint of that response. *)
Theorem X7_waits_of_a_run
        (u : User) (prompt k : string) (upstream : nat -> Attempt)
        (store : Db.Conditions) (w : Db.World) :
  blank prompt = false -> truthy_string k = true ->
  exists run,
    generateImage (Some u) prompt (Some k) upstream store w = Some run /\
    (1 <= List.length (calls (events run)) <= 4)%nat /\
    List.length (fetch_waits (events run)) = List.length (calls (events run)) /\
    S (List.length (delays (events run))) = List.length (calls (events run)) /\
    Forall (fun ms => ms <= 30000) (fetch_waits (events run)) /\
    Forall (delay_explained upstream) (delays (events run)).
Proof.
  intros Hb Hk.
  pose proof (HomeFacts.guard_ready (Some u) prompt (Some k) u k eq_refl Hb eq_refl Hk) as G.
  destruct (RunFacts.generateImage_runs (Some u) prompt (Some k) upstream store w)
    as [run Hrun].
  exists run. split; [exact Hrun|].
  destruct (RunFacts.run_waits _ _ _ _ _ _ _ _ _ _ Hrun G (or_introl eq_refl))
    as (Hw & Hd & Hb30 & He).
  destruct (HomeFacts.run_calls _ _ _ _ _ _ _ _ _ _ Hrun eq_refl eq_refl) as (_ & Hc & _).
  specialize (Hc ltac:(unfold MAX_RETRIES; lia)). unfold MAX_RETRIES in Hc.
  repeat split; auto; lia.
Qed.

Lemma X7_witness :
  exists run,
    generateImage (Some Samples.alice) "a cat" (Some "hf_key")
                  (fun _ => Samples.answers (Samples.limited (Some "7")))
                  Samples.conditions0 Samples.world0 = Some run /\
    (1 <= List.length (calls (events run)) <= 4)%nat /\
    List.length (fetch_waits (events run)) = List.length (calls (events run)) /\
    S (List.length (delays (events run))) = List.length (calls (events run)) /\
    Forall (fun ms => ms <= 30000) (fetch_waits (events run)) /\
    Forall (delay_explained (fun _ => Samples.answers (Samples.limited (Some "7"))))
           (delays (events run)).
Proof.
  apply (X7_waits_of_a_run
           Samples.alice "a cat" "hf_key"
           (fun _ => Samples.answers (Samples.limited (Some "7")))
           Samples.conditions0 Samples.world0); reflexivity.
Defined.

(** X8. Retries are silent. A run that fails shows exactly one error
    notification, whatever the number of attempts: the text of its guard,
    or the message of the error surfaced at the end. A run that displays an
    image shows the outcome of the save and then 'Image generated
    successfully!', also when the save failed. *)
Theorem X8_notifications_of_a_run
        (user : option User) (prompt : string) (apiKey : option string)
        (upstream : nat -> Attempt) (store : Db.Conditions) (w : Db.World) :
  exists run,
    generateImage user prompt apiKey upstream store w = Some run /\
    toasts (events run) =
    match exit run with
    | NoUser => [EToastError msg_sign_in_generate]
    | NoPrompt => [EToastError msg_enter_prompt]
    | NoClient => [EToastError msg_no_client]
    | Surfaced e => [EToastError (errorMessage e)]
    | Displayed _ saved =>
        [match saved with
         | SaveNoUser => EToastError msg_sign_in_save
         | SaveFailed => EToastError msg_save_failed
         | Saved => EToastSuccess msg_saved
         end; EToastSuccess msg_generated]
    end.
Proof.
  destruct (RunFacts.generateImage_runs user prompt apiKey upstream store w) as [run Hrun].
  exists run. split; [exact Hrun|].
  exact (RunFacts.run_toasts _ _ _ _ _ _ _ _ _ _ Hrun (or_introl eq_refl)).
Qed.

(** X9. What a run of generateImage can do to the table. It never removes
    or changes a row. It adds at most one row, at the end, and only under
    these conditions: the store's own [auth.uid()] is the user of the
    component, and the id given to the row was unused; the row then carries
    that user, the prompt as typed, and the store's clock. Hence ids stay
    pairwise distinct, and a client whose store session is another user's
    (or none) never creates a record. *)
Theorem X9_runs_only_append_rows_owned_by_the_session
        (user : option User) (prompt : string) (apiKey : option string)
        (upstream : nat -> Attempt) (store : Db.Conditions) (w : Db.World) :
  exists run,
    generateImage user prompt apiKey upstream store w = Some run /\
    Db.auth_uid (world run) = Db.auth_uid w /\
    (Db.images (world run) = Db.images w \/
     exists u url,
       user = Some u /\ Db.auth_uid w = Some (uid u) /\
       exit run = Displayed (Some url) Saved /\
       Db.images (world run) =
       Db.images w ++ [Db.mkRow (Db.fresh_id store) (uid u) url prompt (Db.now store)]) /\
    (NoDup (map Db.id (Db.images w)) -> NoDup (map Db.id (Db.images (world run)))) /\
    (forall u, user = Some u -> Db.auth_uid w <> Some (uid u) -> world run = w).
Proof.
  destruct (RunFacts.generateImage_runs user prompt apiKey upstream store w) as [run Hrun].
  exists run. split; [exact Hrun|].
  pose proof (HomeFacts.run_displayed _ _ _ _ _ _ _ _ _ _ Hrun eq_refl) as Hdisp.
  assert (Hcases :
            world run = w \/
            exists u url,
              user = Some u /\ Db.auth_uid w = Some (uid u) /\
              exit run = Displayed (Some url) Saved /\
              Db.id_taken (Db.images w) (Db.fresh_id store) = false /\
              Db.auth_uid (world run) = Db.auth_uid w /\
              Db.images (world run) =
              Db.images w ++ [Db.mkRow (Db.fresh_id store) (uid u) url prompt (Db.now store)]).
  { destruct (exit run) as [| | |e|image saved] eqn:E; try (left; apply Hdisp).
    destruct Hdisp as (pre & _ & _ & Hx & Hw & _).
    destruct (HomeFacts.onloadend_shape user prompt store w image)
      as (evs & saved' & w' & Hsave & Hshape).
    rewrite Hshape in Hx, Hw. cbn [exit world] in Hx, Hw. inversion Hx; subst saved' w'.
    apply HomeFacts.saveImage_cases in Hsave.
    destruct Hsave as [(_ & _ & _ & Hw')|(u & Hu & [(_ & Hw' & _)|(Hs & Hins & _)])];
      [now left|now left|].
    right. subst saved.
    destruct (DbFacts.insert_accepted _ _ _ _ Hins) as (url & Hurl & Himg & Hauth).
    destruct (RunFacts.insert_accepted_fresh _ _ _ _ Hins) as (Hfresh & Hsame).
    cbn [Db.new_image_url Db.new_user_id Db.new_prompt] in *. subst image.
    exists u, url. repeat split; auto. }
  destruct Hcases as [-> | (u & url & Hu & Hauth & Hexit & Hfresh & Hsame & Himg)].
  - repeat split; auto.
  - split; [exact Hsame|]. split; [right; exists u, url; auto|]. split.
    + intros Hnodup. rewrite Himg, map_app. cbn [map Db.id].
      rewrite <- (rev_involutive (map Db.id (Db.images w) ++ [Db.fresh_id store])).
      apply NoDup_rev. rewrite rev_app_distr. cbn [rev app].
      constructor.
      * rewrite <- in_rev. now apply RunFacts.id_taken_false.
      * now apply NoDup_rev.
    + intros u' Hu' Hne. exfalso. apply Hne. congruence.
Qed.

End Extras.

(** ** Facts about the gallery and the sign-in modal *)

Module GalleryFacts.
Import Db.
Local Open Scope list_scope.

Lemma filter_filter_exclusive {A : Type} (f g : A -> bool) (l : list A) :
  (forall x, g x = true -> f x = false) -> filter f (filter g l) = [].
Proof.
  intros Hex. induction l as [|x l IH]; [reflexivity|].
  cbn [filter]. destruct (g x) eqn:G; [|exact IH].
  cbn [filter]. now rewrite (Hex x G).
Qed.

(** A row newer than all the others sorts first. *)
Lemma order_desc_newest (l : list ImageRow) (r : ImageRow) :
  (forall x, In x l -> created_at x < created_at r) ->
  order_desc (l ++ [r]) = r :: order_desc l.
Proof.
  induction l as [|x l IH]; intros Hnew; [reflexivity|].
  cbn [app order_desc]. rewrite IH by (intros y Hy; apply Hnew; now right).
  cbn [insert_desc].
  assert (Hx : created_at x < created_at r) by (apply Hnew; now left).
  destruct (created_at r <? created_at x) eqn:E; [|reflexivity].
  apply Z.ltb_lt in E. lia.
Qed.

End GalleryFacts.

(** ** Further properties: the gallery and the sign-in modal *)

Module GalleryExtras.
Import JS Home.
Local Open Scope list_scope.

(** X10. The rows the gallery receives are owned by the identity the
    store itself sees, as well as by the user the component asks for: when
    the two differ (or the client is anonymous at the store) the query
    answers with no row at all, whatever the table holds. *)
Theorem X10_gallery_rows_belong_to_the_store_session
        (u : User) (w : Db.World) (c : Db.Conditions) :
  Db.fault c = false ->
  exists data,
    Profile.loadImages (Some u) w c
    = ([Profile.ESetImages data; Profile.ESetLoading false], Some data) /\
    Forall (fun r => Db.auth_uid w = Some (Db.user_id r)) data /\
    (Db.auth_uid w <> Some (uid u) -> data = []).
Proof.
  intros Hfault. unfold Profile.loadImages, Db.select_by_owner. rewrite Hfault.
  eexists. split; [reflexivity|]. split.
  - eapply Permutation_Forall; [apply Permutation_sym, DbFacts.order_desc_perm|].
    apply Forall_forall. intros r Hr.
    apply filter_In in Hr. destruct Hr as [Hr _]. apply filter_In in Hr.
    destruct Hr as [_ Hp]. unfold Db.policy in Hp.
    destruct (Db.auth_uid w) as [a|]; [|discriminate].
    apply String.eqb_eq in Hp. now subst.
  - intros Hne. rewrite GalleryFacts.filter_filter_exclusive; [reflexivity|].
    intros r Hp. apply String.eqb_neq. intros Heq. apply Hne.
    unfold Db.policy in Hp. destruct (Db.auth_uid w) as [a|]; [|discriminate].
    apply String.eqb_eq in Hp. congruence.
Qed.

(** Bob's session asking with Alice's gallery in the table. *)
Lemma X10_witness :
  let w := Db.mkWorld (Db.images Samples.gallery) (Some "bob") in
  exists data,
    Profile.loadImages (Some Samples.alice) w Samples.conditions0
    = ([Profile.ESetImages data; Profile.ESetLoading false], Some data) /\
    Forall (fun r => Db.auth_uid w = Some (Db.user_id r)) data /\
    data = [].
Proof.
  intros w.
  destruct (X10_gallery_rows_belong_to_the_store_session
              Samples.alice w Samples.conditions0 eq_refl) as (data & Hload & Hown & Hnone).
  exists data. repeat split; try assumption. apply Hnone. discriminate.
Defined.

(** X11. What is saved is found again. After a save that the store
    accepted, the gallery of the same user is the gallery as it was plus
    the new record, which carries the image and the prompt that were
    saved; when the new record is newer than the user's other records it
    is the first card. *)
Theorem X11_saved_image_heads_the_gallery
        (u : User) (store : Db.Conditions) (w w' : Db.World) (url p : string)
        (evs : list Event) (c : Db.Conditions) :
  saveImage (Some u) store w (Some url) p = (evs, Saved, w') ->
  Db.fault c = false ->
  let record := Db.mkRow (Db.fresh_id store) (uid u) url p (Db.now store) in
  exists before after,
    snd (Profile.loadImages (Some u) w c) = Some before /\
    snd (Profile.loadImages (Some u) w' c) = Some after /\
    Permutation after (record :: before) /\
    ((forall r, In r (Db.images w) -> Db.user_id r = uid u ->
                Db.created_at r < Db.now store) ->
     after = record :: before).
Proof.
  intros Hsave Hfault record.
  apply HomeFacts.saveImage_cases in Hsave.
  destruct Hsave as [(Hu & _)|(u0 & Hu & [(Hs & _)|(_ & Hins & _)])]; try discriminate.
  inversion Hu; subst u0; clear Hu.
  destruct (DbFacts.insert_accepted _ _ _ _ Hins) as (url' & Hurl & Himg & Hauth).
  destruct (RunFacts.insert_accepted_fresh _ _ _ _ Hins) as (_ & Hsame).
  cbn [Db.new_image_url Db.new_user_id Db.new_prompt] in *.
  inversion Hurl; subst url'; clear Hurl. fold record in Himg.
  unfold Profile.loadImages, Db.select_by_owner. rewrite Hfault. cbn [snd].
  do 2 eexists. split; [reflexivity|]. split; [reflexivity|].
  rewrite Himg, Hsame, Hauth, !filter_app. cbn [filter Db.policy Db.user_id record].
  rewrite String.eqb_refl. cbn [filter app Db.user_id]. rewrite String.eqb_refl.
  split.
  - rewrite DbFacts.order_desc_perm, DbFacts.order_desc_perm.
    apply Permutation_sym, Permutation_cons_append.
  - intros Hnew. apply GalleryFacts.order_desc_newest.
    intros x Hx. apply filter_In in Hx. destruct Hx as [Hx Hown].
    apply filter_In in Hx. destruct Hx as [Hx _].
    apply String.eqb_eq in Hown. now apply Hnew.
Qed.

(** Alice saves a picture into her gallery at a later time. *)
Lemma X11_witness :
  let record := Db.mkRow "img-9" "alice" Samples.picture "an owl" 40 in
  exists before after,
    snd (Profile.loadImages (Some Samples.alice) Samples.gallery Samples.conditions0)
    = Some before /\
    snd (Profile.loadImages (Some Samples.alice)
                            (Db.mkWorld (Db.images Samples.gallery ++ [record]) (Some "alice"))
                            Samples.conditions0)
    = Some after /\
    Permutation after (record :: before) /\
    after = record :: before.
Proof.
  intros record.
  destruct (X11_saved_image_heads_the_gallery
              Samples.alice MoreSamples.later Samples.gallery
              (Db.mkWorld (Db.images Samples.gallery ++ [record]) (Some "alice"))
              Samples.picture "an owl"
              [EInsert (Db.mkNew "alice" (Some Samples.picture) "an owl");
               EToastSuccess msg_saved]
              Samples.conditions0 eq_refl eq_refl)
    as (before & after & Hb & Ha & Hp & Hnew).
  exists before, after. repeat split; try assumption.
  apply Hnew. intros r Hr _. cbn in Hr.
  destruct Hr as [<-|[<-|[<-|[]]]]; reflexivity.
Defined.

(** X12. A failed gallery query is reported on the console only and
    changes nothing in the state. Over any sequence of runs of the effect
    since the mount, each of them either without a user or with a query
    that failed, no row is ever set and no image selected; the loading flag
    is cleared by the runs without a user only. So the page shows the
    spinner for good when the user was signed in all along, and the empty
    gallery ('No images yet') once a run without a user has happened; the
    failure itself is shown in neither case. *)
Theorem X12_failed_queries_are_never_shown
        (runs : list (option User * Db.World * Db.Conditions)) (viewer : User) :
  Forall (fun q => fst (fst q) = None \/ Db.fault (snd q) = true) runs ->
  let s := fold_left
             (fun s q => ProfileView.after_load (fst (fst q)) (snd (fst q)) (snd q) s)
             runs ProfileView.initial in
  let signed_out := existsb (fun q => negb (HomeView.signed_in (fst (fst q)))) runs in
  s = ProfileView.mkState [] (negb signed_out) None /\
  ProfileView.render (Some viewer) s
  = (if signed_out then ProfileView.Page [] None else ProfileView.Spinner).
Proof.
  intros Hall s signed_out.
  assert (Hs : forall b,
             fold_left
               (fun s q => ProfileView.after_load (fst (fst q)) (snd (fst q)) (snd q) s)
               runs (ProfileView.mkState [] b None)
             = ProfileView.mkState [] (b && negb signed_out) None).
  { subst s signed_out. induction Hall as [|[[user w] c] runs Hq _ IH]; intros b.
    - cbn. now rewrite andb_true_r.
    - cbn [fold_left existsb fst snd] in *.
      unfold ProfileView.after_load at 2, Profile.loadImages, Db.select_by_owner.
      destruct user as [u|].
      + destruct Hq as [Hq|Hq]; [discriminate|]. rewrite Hq.
        cbn [fst ProfileView.apply_events fold_left HomeView.signed_in negb orb].
        apply IH.
      + cbn [fst ProfileView.apply_events fold_left ProfileView.apply_event
             ProfileView.images ProfileView.selectedImage HomeView.signed_in negb orb].
        rewrite IH. now rewrite andb_false_r. }
  assert (Hstate : s = ProfileView.mkState [] (negb signed_out) None) by apply (Hs true).
  split; [exact Hstate|]. rewrite Hstate. cbn [ProfileView.render ProfileView.loading].
  now destruct signed_out.
Qed.

(** A mount while signed out, then a sign-in whose query fails; and a
    query that fails with the user signed in from the mount. *)
Lemma X12_witness :
  let after := fun runs =>
                 fold_left
                   (fun s q => ProfileView.after_load (fst (fst q)) (snd (fst q)) (snd q) s)
                   runs ProfileView.initial in
  ProfileView.render
    (Some Samples.alice)
    (after [(None, Samples.gallery, Samples.conditions0);
            (Some Samples.alice, Samples.gallery, Samples.store_down)])
  = ProfileView.Page [] None /\
  ProfileView.render
    (Some Samples.alice) (after [(Some Samples.alice, Samples.gallery, Samples.store_down)])
  = ProfileView.Spinner.
Proof.
  intros after. split.
  - apply (X12_failed_queries_are_never_shown
             [(None, Samples.gallery, Samples.conditions0);
              (Some Samples.alice, Samples.gallery, Samples.store_down)] Samples.alice).
    constructor; [left; reflexivity|]. constructor; [right; reflexivity|constructor].
  - apply (X12_failed_queries_are_never_shown
             [(Some Samples.alice, Samples.gallery, Samples.store_down)] Samples.alice).
    constructor; [right; reflexivity|constructor].
Defined.

(** X13. The component never clears the rows it holds. Once the gallery
    of a user has loaded (and one of its cards been opened), it stays in
    the state through the sign-out; when another user signs in, the page
    shows the first user's cards, and the opened image, until the second
    user's query answers, and for good if that query fails. *)
Theorem X13_gallery_of_the_previous_user_stays_on_screen
        (a b : User) (w1 w2 w3 : Db.World) (c1 c2 c3 : Db.Conditions)
        (s : ProfileView.State) (data : list Db.ImageRow) (row : Db.ImageRow) :
  Db.select_by_owner w1 c1 (uid a) = Some data ->
  In row data ->
  let opened := ProfileView.click_card row (ProfileView.after_load (Some a) w1 c1 s) in
  let signed_out := ProfileView.after_load None w2 c2 opened in
  ProfileView.render (Some a) opened = ProfileView.Page data (Some row) /\
  ProfileView.render None signed_out = ProfileView.PleaseSignIn /\
  ProfileView.render (Some b) signed_out = ProfileView.Page data (Some row) /\
  (Db.fault c3 = true ->
   ProfileView.render (Some b) (ProfileView.after_load (Some b) w3 c3 signed_out)
   = ProfileView.Page data (Some row)) /\
  Forall (fun r => Db.user_id r = uid a) data.
Proof.
  intros Hsel _ opened signed_out. subst opened signed_out.
  unfold ProfileView.after_load, Profile.loadImages. rewrite Hsel.
  repeat split.
  - intros Hfault. unfold Db.select_by_owner. rewrite Hfault. reflexivity.
  - apply (DbFacts.select_by_owner_spec _ _ _ _ Hsel).
Qed.

(** Alice's gallery, then Bob on the same page. *)
Lemma X13_witness :
  let data := [Db.mkRow "c" "alice" "url-c" "a fox" 30;
               Db.mkRow "a" "alice" "url-a" "a cat" 10] in
  let row := Db.mkRow "c" "alice" "url-c" "a fox" 30 in
  let opened :=
    ProfileView.click_card
      row (ProfileView.after_load (Some Samples.alice) Samples.gallery Samples.conditions0
                                  ProfileView.initial) in
  let signed_out := ProfileView.after_load None Samples.gallery Samples.conditions0 opened in
  ProfileView.render (Some Samples.alice) opened = ProfileView.Page data (Some row) /\
  ProfileView.render None signed_out = ProfileView.PleaseSignIn /\
  ProfileView.render (Some MoreSamples.bob) signed_out = ProfileView.Page data (Some row) /\
  ProfileView.render (Some MoreSamples.bob)
                     (ProfileView.after_load (Some MoreSamples.bob) Samples.gallery
                                             Samples.store_down signed_out)
  = ProfileView.Page data (Some row) /\
  Forall (fun r => Db.user_id r = "alice") data.
Proof.
  intros data row opened signed_out.
  destruct (X13_gallery_of_the_previous_user_stays_on_screen
              Samples.alice MoreSamples.bob Samples.gallery Samples.gallery Samples.gallery
              Samples.conditions0 Samples.conditions0 Samples.store_down
              ProfileView.initial data row eq_refl (or_introl eq_refl))
    as (H1 & H2 & H3 & H4 & H5).
  split; [exact H1|]. split; [exact H2|]. split; [exact H3|].
  split; [exact (H4 eq_refl)|exact H5].
Defined.

Lemma run_cons (m : AuthModal.Modal) (a : AuthModal.Action) (rest : list AuthModal.Action) :
  AuthModal.run m (a :: rest)
  = (fst (AuthModal.run (fst (AuthModal.step m a)) rest),
     snd (AuthModal.step m a) ++ snd (AuthModal.run (fst (AuthModal.step m a)) rest)).
Proof.
  cbn [AuthModal.run]. destruct (AuthModal.step m a) as [m1 evs1]. cbn [fst snd].
  destruct (AuthModal.run m1 rest) as [m2 evs2]. reflexivity.
Qed.

(** X14. A rejected submission never closes the sign-in modal. Over any
    sequence of actions on an open modal that holds neither a click on
    the close button nor an accepted submission, the modal stays open, no
    success is notified, and each rejected submission has shown exactly
    one error: the message of the error, or 'Authentication failed' for a
    thrown value that is not an Error. *)
Theorem X14_rejected_submissions_keep_the_modal_open
        (m : AuthModal.Modal) (actions : list AuthModal.Action) :
  AuthModal.isOpen m = true ->
  Forall (fun a => AuthModal.ends_session a = false) actions ->
  AuthModal.isOpen (fst (AuthModal.run m actions)) = true /\
  AuthModal.closes (snd (AuthModal.run m actions)) = false /\
  AuthModal.success_toasts (snd (AuthModal.run m actions)) = [] /\
  AuthModal.error_toasts (snd (AuthModal.run m actions))
  = map AuthModal.rejection_text (AuthModal.rejections actions).
Proof.
  intros Hopen Hall. revert m Hopen.
  induction Hall as [|a actions Ha _ IH]; intros m Hopen.
  - repeat split; auto.
  - rewrite run_cons. cbn [fst snd].
    assert (Hstep : AuthModal.isOpen (fst (AuthModal.step m a)) = true /\
                    AuthModal.closes (snd (AuthModal.step m a)) = false /\
                    AuthModal.success_toasts (snd (AuthModal.step m a)) = [] /\
                    AuthModal.error_toasts (snd (AuthModal.step m a))
                    = map AuthModal.rejection_text (AuthModal.rejections [a])).
    { unfold AuthModal.step. rewrite Hopen.
      destruct a as [| | | |[e|]|]; try discriminate; cbn; repeat split; auto;
        destruct (AuthModal.isLogin (AuthModal.form m)); reflexivity. }
    destruct Hstep as (H1 & H2 & H3 & H4).
    destruct (IH _ H1) as (I1 & I2 & I3 & I4).
    split; [exact I1|]. unfold AuthModal.closes, AuthModal.success_toasts,
                          AuthModal.error_toasts in *.
    rewrite existsb_app, !flat_map_app, H2, I2, H3, I3, H4, I4.
    repeat split.
    change (a :: actions) with ([a] ++ actions).
    unfold AuthModal.rejections. now rewrite flat_map_app, map_app.
Qed.

Lemma X14_witness :
  let m := AuthModal.mkModal true (AuthModal.mkForm true "a@b.c" "secret") in
  let actions := [AuthModal.Submit (Some (Error "Invalid login credentials"));
                  AuthModal.ClickToggle;
                  AuthModal.Submit (Some OtherValue)] in
  AuthModal.isOpen (fst (AuthModal.run m actions)) = true /\
  AuthModal.closes (snd (AuthModal.run m actions)) = false /\
  AuthModal.success_toasts (snd (AuthModal.run m actions)) = [] /\
  AuthModal.error_toasts (snd (AuthModal.run m actions))
  = ["Invalid login credentials"; "Authentication failed"].
Proof.
  intros m actions.
  apply (X14_rejected_submissions_keep_the_modal_open m actions).
  - reflexivity.
  - repeat constructor.
Defined.

(** X15. What was typed outlives the modal. Nothing but typing changes
    the e-mail and the password held by the modal: over any sequence of
    submissions, closings, reopenings and mode switches they are the same,
    and the next submission of the open modal sends them to the identity
    provider again. *)
Theorem X15_typed_credentials_outlive_the_modal
        (m : AuthModal.Modal) (actions : list AuthModal.Action)
        (outcome : option Thrown) :
  Forall (fun a => AuthModal.is_typing a = false) actions ->
  let m' := fst (AuthModal.run m actions) in
  AuthModal.email (AuthModal.form m') = AuthModal.email (AuthModal.form m) /\
  AuthModal.password (AuthModal.form m') = AuthModal.password (AuthModal.form m) /\
  (AuthModal.isOpen m' = true ->
   exists rest,
     snd (AuthModal.step m' (AuthModal.Submit outcome))
     = (if AuthModal.isLogin (AuthModal.form m')
        then AuthModal.ESignIn (AuthModal.email (AuthModal.form m))
                               (AuthModal.password (AuthModal.form m))
        else AuthModal.ESignUp (AuthModal.email (AuthModal.form m))
                               (AuthModal.password (AuthModal.form m))) :: rest).
Proof.
  intros Hall m'. subst m'.
  assert (Hkeep : AuthModal.email (AuthModal.form (fst (AuthModal.run m actions)))
                  = AuthModal.email (AuthModal.form m) /\
                  AuthModal.password (AuthModal.form (fst (AuthModal.run m actions)))
                  = AuthModal.password (AuthModal.form m)).
  { revert m. induction Hall as [|a actions Ha _ IH]; intros m; [split; reflexivity|].
    rewrite run_cons. cbn [fst].
    destruct (IH (fst (AuthModal.step m a))) as [-> ->].
    unfold AuthModal.step.
    destruct a as [| | | |o|]; try discriminate;
      destruct (AuthModal.isOpen m); split; reflexivity. }
  destruct Hkeep as [He Hp]. split; [exact He|]. split; [exact Hp|].
  intros Hopen.
  assert (Hsub : snd (AuthModal.step (fst (AuthModal.run m actions)) (AuthModal.Submit outcome))
                 = AuthModal.handleSubmit (AuthModal.form (fst (AuthModal.run m actions)))
                                          outcome).
  { unfold AuthModal.step. now rewrite Hopen. }
  rewrite Hsub. unfold AuthModal.handleSubmit. rewrite He, Hp. eexists. reflexivity.
Qed.

(** Signed in, closed by the success, reopened from the navbar. *)
Lemma X15_witness :
  let m := AuthModal.mkModal true (AuthModal.mkForm true "a@b.c" "secret") in
  let m' := fst (AuthModal.run m [AuthModal.Submit None; AuthModal.ClickSignIn]) in
  AuthModal.email (AuthModal.form m') = "a@b.c" /\
  AuthModal.password (AuthModal.form m') = "secret" /\
  exists rest,
    snd (AuthModal.step m' (AuthModal.Submit None))
    = AuthModal.ESignIn "a@b.c" "secret" :: rest.
Proof.
  intros m m'.
  destruct (X15_typed_credentials_outlive_the_modal
              m [AuthModal.Submit None; AuthModal.ClickSignIn] None)
    as (He & Hp & Hnext).
  - repeat constructor.
  - split; [exact He|]. split; [exact Hp|]. apply Hnext. reflexivity.
Defined.

End GalleryExtras.
